(** * Crypto Price API: a shallow embedding of [server.js]

    The server is a thin Express application: an in-memory price cache in
    front of one upstream call, an API-key middleware that derives a tier
    from the key's prefix, a rate limiter built from a per-tier table, and a
    key-issuing endpoint.

    The embedding keeps the program's shape.  The two module-level maps
    ([cache], [apiKeys]) live in a [World] that every handler threads
    through; everything the program asks of its surroundings (the clock,
    the upstream provider, [Math.random], the limiter's verdict, and the
    string primitives of the runtime) is an [Env] of oracles, each indexed
    by how many times it has been consulted so far.  Effects that only
    leave the process (outbound requests, [console.error] lines) are
    recorded in the [World] so that statements such as "no second upstream
    call" can be read off the final state.

    Each request is run to completion on its own: the interleaving of
    concurrent requests at an [await] is outside this model. *)

From stdpp Require Import base option list strings gmap.
From Stdlib Require Import ZArith QArith Lia.

Local Open Scope Z_scope.
Local Open Scope string_scope.

Set Warnings "-register-all".

(** ** JavaScript values *)

(** The JSON fragment of JavaScript values that the handlers build and
    inspect, plus [JsNative] for the functions and objects that the
    runtime supplies through [Object.prototype].  Numbers are the decimal
    values of a JSON text.  An object is its list of own properties, in
    insertion order, with distinct keys. *)
Inductive JsValue : Type :=
  | JsUndefined
  | JsNull
  | JsBool (b : bool)
  | JsNumber (q : Q)
  | JsString (s : string)
  | JsObject (props : list (string * JsValue))
  | JsNative (name : string).

Definition JsObj : Type := list (string * JsValue).

(** [ToBoolean]: what [if (v)] and [!v] see. *)
Definition truthy (v : JsValue) : bool :=
  match v with
  | JsUndefined | JsNull => false
  | JsBool b => b
  | JsNumber q => negb (Qnum q =? 0)%Z
  | JsString s => negb (String.eqb s "")
  | JsObject _ | JsNative _ => true
  end.

Fixpoint own_property (o : JsObj) (k : string) : option JsValue :=
  match o with
  | [] => None
  | (k', v) :: o' => if String.eqb k' k then Some v else own_property o' k
  end.

(** The property names every plain object inherits from
    [Object.prototype]. *)
Definition Object_prototype : list string :=
  [ "constructor"; "__proto__"; "hasOwnProperty"; "isPrototypeOf";
    "propertyIsEnumerable"; "toLocaleString"; "toString"; "valueOf";
    "__defineGetter__"; "__defineSetter__";
    "__lookupGetter__"; "__lookupSetter__" ].

(** [o[k]] on a plain object: the own property if there is one, else what
    the prototype chain gives, else [undefined]. *)
Definition get_property (o : JsObj) (k : string) : JsValue :=
  match own_property o k with
  | Some v => v
  | None =>
      if existsb (String.eqb k) Object_prototype
      then JsNative ("Object.prototype." +:+ k)
      else JsUndefined
  end.

(** [s.startsWith(p)] *)
Definition startsWith (s p : string) : bool := String.prefix p s.

(** [s.substring(i, j)] for [i <= j]: the characters at positions
    [i .. j-1], as many of them as [s] has. *)
Definition substring (i j : nat) (s : string) : string :=
  String.substring i (j - i) s.

(** Thrown values: every error this program handles is read through its
    [message] only. *)
Record JsError : Type := { message : string }.

Inductive Result (A : Type) : Type :=
  | Ok (a : A)
  | Throw (e : JsError).
Arguments Ok {A} a.
Arguments Throw {A} e.

(** ** Configuration and records of the program *)

Inductive Tier : Type := free | pro | enterprise.

(** The string a tier is written as in the source and in responses. *)
Definition tier_name (t : Tier) : string :=
  match t with
  | free => "free"
  | pro => "pro"
  | enterprise => "enterprise"
  end.

Definition CACHE_TTL : Z := 60000.

(** A value of the [cache] map: [{ data, timestamp }]. *)
Record CacheEntry : Type := { data : JsObj; timestamp : Z }.

(** A value of the [apiKeys] map: [{ tier, createdAt }].  The tier is
    whatever value the request body carried. *)
Record ApiKeyRecord : Type := { key_tier : JsValue; createdAt : Z }.

(** An entry of the [limits] table. *)
Record Limit : Type := { limit_windowMs : Z; limit_max : Z }.

(** The options object handed to [rateLimit]. *)
Record RateLimitOptions : Type :=
  { windowMs : Z; max : Z; rl_message : JsValue }.

(** What a handler sees of a request.  [req_tier] and [req_apiKey] are the
    two fields [validateApiKey] assigns; they are absent until it runs. *)
Record Request : Type :=
  { header_x_api_key : option string;
    params_id : string;
    body : JsObj;
    ip : string;
    req_tier : option Tier;
    req_apiKey : option string }.

Record Response : Type := { status : Z; json : JsValue }.

(** ** The surroundings and the process state *)

Record Env : Type :=
  { (** the [i]-th reading of the system clock, in ms since the epoch *)
    Date_now : nat → Z;
    (** [new Date(ms).toISOString()] *)
    toISOString : Z → string;
    (** [String.prototype.toLowerCase] *)
    toLowerCase : string → string;
    (** the [i]-th [Math.random()], as printed by [toString(36)] *)
    Math_random_36 : nat → string;
    (** the [i]-th outbound GET: [response.data] of a successful response
        (the provider's JSON body, an object keyed by asset id), or the
        error axios rejects with (timeout, non-2xx status, ...) *)
    axios_get : nat → string → Result JsObj;
    (** whether the limiter turns away its [i]-th request *)
    limiter_rejects : nat → RateLimitOptions → Request → bool }.

Record World : Type :=
  { cache : gmap string CacheEntry;
    apiKeys : gmap string ApiKeyRecord;
    (** lines written with [console.error], oldest first *)
    console : list string;
    (** the URLs requested from the upstream provider, oldest first *)
    upstream_calls : list string;
    (** the options of each limiter consultation, oldest first *)
    limiter_calls : list RateLimitOptions;
    clock_reads : nat;
    random_draws : nat }.

Definition initial_world : World :=
  {| cache := ∅; apiKeys := ∅; console := []; upstream_calls := [];
     limiter_calls := []; clock_reads := 0; random_draws := 0 |}.

(** ** The monad of handlers: environment, state, exceptions *)

Definition M (A : Type) : Type := Env → World → Result A * World.

Definition ret {A} (a : A) : M A := λ _ w, (Ok a, w).

Definition bind {A B} (m : M A) (k : A → M B) : M B :=
  λ env w,
    match m env w with
    | (Ok a, w') => k a env w'
    | (Throw e, w') => (Throw e, w')
    end.

Definition throw {A} (e : JsError) : M A := λ _ w, (Throw e, w).

(** [try { m } catch (error) { h error }] *)
Definition try_catch {A} (m : M A) (h : JsError → M A) : M A :=
  λ env w,
    match m env w with
    | (Ok a, w') => (Ok a, w')
    | (Throw e, w') => h e env w'
    end.

Declare Scope js_scope.
Delimit Scope js_scope with js.
Notation "'let*' x ':=' m 'in' k" := (bind m (λ x, k))
  (at level 10, x name, m at level 100, k at level 200) : js_scope.
Notation "m ';;' k" := (bind m (λ _, k))
  (at level 100, k at level 200, right associativity) : js_scope.
Local Open Scope js_scope.

(** *** Primitive operations

    Each primitive changes one component of the [World]; the changes are
    named so that final states can be written down. *)

Definition tick (w : World) : World :=
  {| cache := cache w; apiKeys := apiKeys w; console := console w;
     upstream_calls := upstream_calls w; limiter_calls := limiter_calls w;
     clock_reads := S (clock_reads w); random_draws := random_draws w |}.

Definition drawn (w : World) : World :=
  {| cache := cache w; apiKeys := apiKeys w; console := console w;
     upstream_calls := upstream_calls w; limiter_calls := limiter_calls w;
     clock_reads := clock_reads w; random_draws := S (random_draws w) |}.

Definition stored (k : string) (e : CacheEntry) (w : World) : World :=
  {| cache := <[k := e]> (cache w); apiKeys := apiKeys w;
     console := console w; upstream_calls := upstream_calls w;
     limiter_calls := limiter_calls w; clock_reads := clock_reads w;
     random_draws := random_draws w |}.

Definition issued (k : string) (r : ApiKeyRecord) (w : World) : World :=
  {| cache := cache w; apiKeys := <[k := r]> (apiKeys w);
     console := console w; upstream_calls := upstream_calls w;
     limiter_calls := limiter_calls w; clock_reads := clock_reads w;
     random_draws := random_draws w |}.

Definition logged (line : string) (w : World) : World :=
  {| cache := cache w; apiKeys := apiKeys w;
     console := console w ++ [line]; upstream_calls := upstream_calls w;
     limiter_calls := limiter_calls w; clock_reads := clock_reads w;
     random_draws := random_draws w |}.

Definition requested (url : string) (w : World) : World :=
  {| cache := cache w; apiKeys := apiKeys w; console := console w;
     upstream_calls := upstream_calls w ++ [url];
     limiter_calls := limiter_calls w; clock_reads := clock_reads w;
     random_draws := random_draws w |}.

Definition consulted (options : RateLimitOptions) (w : World) : World :=
  {| cache := cache w; apiKeys := apiKeys w; console := console w;
     upstream_calls := upstream_calls w;
     limiter_calls := limiter_calls w ++ [options];
     clock_reads := clock_reads w; random_draws := random_draws w |}.

(** [Date.now()] *)
Definition now : M Z := λ env w, (Ok (Date_now env (clock_reads w)), tick w).

(** [Math.random().toString(36)] *)
Definition random_36 : M string := λ env w,
  (Ok (Math_random_36 env (random_draws w)), drawn w).

(** [cache.get(k)] *)
Definition cache_get (k : string) : M (option CacheEntry) := λ _ w,
  (Ok (cache w !! k), w).

(** [cache.set(k, e)] *)
Definition cache_set (k : string) (e : CacheEntry) : M unit := λ _ w,
  (Ok tt, stored k e w).

(** [apiKeys.set(k, r)] *)
Definition apiKeys_set (k : string) (r : ApiKeyRecord) : M unit := λ _ w,
  (Ok tt, issued k r w).

(** [console.error(...)] *)
Definition console_error (line : string) : M unit := λ _ w,
  (Ok tt, logged line w).

(** [await axios.get(url, { timeout: 10000 })], reduced to [response.data]. *)
Definition axios_data (url : string) : M JsObj := λ env w,
  (axios_get env (length (upstream_calls w)) url, requested url w).

(** ** [getCryptoPrices] *)

Definition price_url (ids : string) : string :=
  "https://api.coingecko.com/api/v3/simple/price?ids=" +:+ ids +:+
  "&vs_currencies=usd&include_24hr_change=true&include_market_cap=true&include_24hr_vol=true".

Definition cacheKey (ids : string) : string := "prices_" +:+ ids.

(** The [try { ... } catch] half of [getCryptoPrices]: one upstream call,
    then the cache write, or the log line and the rethrow. *)
Definition fetch_and_store (ids : string) : M JsObj :=
  try_catch
    (let* response_data := axios_data (price_url ids) in
     let* t := now in
     cache_set (cacheKey ids) {| data := response_data; timestamp := t |};;
     ret response_data)
    (λ error,
       console_error ("Error fetching prices: " +:+ message error);;
       throw error).

(** Both call sites pass [ids], so the parameter's default
    (['bitcoin,ethereum']) never applies.  [cached && ...] reads the clock
    only when there is an entry. *)
Definition getCryptoPrices (ids : string) : M JsObj :=
  let* cached := cache_get (cacheKey ids) in
  match cached with
  | Some c =>
      let* t := now in
      if bool_decide (t - timestamp c < CACHE_TTL)
      then ret (data c)
      else fetch_and_store ids
  | None => fetch_and_store ids
  end.

(** ** Middleware *)

Definition Handler : Type := Request → M Response.
Definition Middleware : Type := Request → Handler → M Response.

(** [res.status(code).json(obj)]; [res.json(obj)] is [res_json 200 obj]. *)
Definition res_json (code : Z) (obj : JsObj) : Response :=
  {| status := code; json := JsObject obj |}.

Definition missing_key_response : Response :=
  res_json 401
    [ ("error", JsString "API key required");
      ("message", JsString "Get your free API key at https://your-domain.com") ].

(** The three assignments to [tier] in [validateApiKey]. *)
Definition classify (apiKey : string) : Tier :=
  let tier := free in
  let tier := if startsWith apiKey "pro_" then pro else tier in
  let tier := if startsWith apiKey "ent_" then enterprise else tier in
  tier.

(** [req.headers['x-api-key']] is [undefined] or a string; [!apiKey] holds
    for [undefined] and for the empty string. *)
Definition validateApiKey : Middleware := λ req next,
  let apiKey := header_x_api_key req in
  if negb (truthy (from_option JsString JsUndefined apiKey))
  then ret missing_key_response
  else
    let k := default "" apiKey in
    next {| header_x_api_key := header_x_api_key req;
            params_id := params_id req; body := body req; ip := ip req;
            req_tier := Some (classify k); req_apiKey := Some k |}.

Definition limits (tier : Tier) : Limit :=
  match tier with
  | free => {| limit_windowMs := 60 * 60 * 1000; limit_max := 100 |}
  | pro => {| limit_windowMs := 60 * 60 * 1000; limit_max := 10000 |}
  | enterprise => {| limit_windowMs := 60 * 60 * 1000; limit_max := 100000 |}
  end.

(** The middleware [rateLimit(options)] of express-rate-limit, as far as
    this program depends on it: each request that reaches it is one
    consultation, made with the options the limiter was built from; a
    request over the limit is answered with status 429 and the configured
    [message], any other is passed on. *)
Definition rateLimit (options : RateLimitOptions) : Middleware := λ req next,
  λ env w,
    if limiter_rejects env (length (limiter_calls w)) options req
    then (Ok {| status := 429; json := rl_message options |}, consulted options w)
    else next req env (consulted options w).

(** [tier] ranges over the keys of [limits]; the program calls
    [createRateLimit] with the literal ['free'] only. *)
Definition createRateLimit (tier : Tier) : Middleware :=
  rateLimit
    {| windowMs := limit_windowMs (limits tier);
       max := limit_max (limits tier);
       rl_message :=
         JsObject [("error", JsString "Rate limit exceeded. Upgrade your plan.")] |}.

(** [app.get(path, m1, ..., mn, handler)]: the middlewares run in order,
    each deciding whether the next one is reached. *)
Definition route (middlewares : list Middleware) (handler : Handler) : Handler :=
  foldr (λ (m : Middleware) (next : Handler), λ req, m req next) handler middlewares.

(** ** Route handlers *)

(** [new Date().toISOString()] *)
Definition new_Date_toISOString : M string := λ env,
  (let* t := now in ret (toISOString env t)) env.

(** [s.toLowerCase()] *)
Definition lower (s : string) : M string := λ env, ret (toLowerCase env s) env.

(** [req.tier] as a property value of the response object. *)
Definition tier_value (req : Request) : JsValue :=
  from_option (λ t, JsString (tier_name t)) JsUndefined (req_tier req).

Definition success_body (req : Request) (prices : JsObj) (iso : string) : JsObj :=
  [ ("success", JsBool true);
    ("tier", tier_value req);
    ("data", JsObject prices);
    ("timestamp", JsString iso) ].

Definition prices_handler : Handler := λ req,
  try_catch
    (let* prices := getCryptoPrices "bitcoin,ethereum" in
     let* iso := new_Date_toISOString in
     ret (res_json 200 (success_body req prices iso)))
    (λ error,
       ret (res_json 500
              [ ("error", JsString "Failed to fetch prices");
                ("message", JsString (message error)) ])).

Definition not_found_response (id : string) : Response :=
  res_json 404
    [ ("error", JsString "Cryptocurrency not found");
      ("message",
        JsString ("No data for '" +:+ id +:+
                  "'. Try 'bitcoin', 'ethereum', 'cardano', etc.")) ].

Definition price_handler : Handler := λ req,
  try_catch
    (let id := params_id req in
     let* ids := lower id in
     let* prices := getCryptoPrices ids in
     let* k := lower id in
     if negb (truthy (get_property prices k))
     then ret (not_found_response id)
     else
       let* iso := new_Date_toISOString in
       ret (res_json 200 (success_body req prices iso)))
    (λ error,
       ret (res_json 500
              [ ("error", JsString "Failed to fetch price");
                ("message", JsString (message error)) ])).

(** [v === s] for a string literal [s]. *)
Definition is_string (v : JsValue) (s : string) : bool :=
  match v with
  | JsString s' => String.eqb s' s
  | _ => false
  end.

(** [const { tier = 'free' } = req.body]: the default applies exactly when
    the property reads as [undefined]. *)
Definition body_tier (b : JsObj) : JsValue :=
  match get_property b "tier" with
  | JsUndefined => JsString "free"
  | v => v
  end.

Definition key_prefix (tier : JsValue) : string :=
  if is_string tier "pro" then "pro_"
  else if is_string tier "enterprise" then "ent_"
  else "free_".

Definition generate_key_handler : Handler := λ req,
  let tier := body_tier (body req) in
  let prefix := key_prefix tier in
  let* r1 := random_36 in
  let* r2 := random_36 in
  let key := prefix +:+ substring 2 15 r1 +:+ substring 2 15 r2 in
  let* t := now in
  apiKeys_set key {| key_tier := tier; createdAt := t |};;
  ret (res_json 200
         [ ("apiKey", JsString key);
           ("tier", tier);
           ("message",
             JsString "This is a test key. For production, please upgrade.") ]).

(** ** The routes *)

(** [app.get('/prices', validateApiKey, createRateLimit('free'), ...)] *)
Definition get_prices : Handler :=
  route [validateApiKey; createRateLimit free] prices_handler.

(** [app.get('/prices/:id', validateApiKey, createRateLimit('free'), ...)] *)
Definition get_price : Handler :=
  route [validateApiKey; createRateLimit free] price_handler.

(** [app.post('/generate-key', ...)] *)
Definition post_generate_key : Handler := route [] generate_key_handler.

(** ** Concrete surroundings for examples *)

Definition lower_ascii (c : Ascii.ascii) : Ascii.ascii :=
  let n := Ascii.nat_of_ascii c in
  if ((65 <=? n) && (n <=? 90))%nat then Ascii.ascii_of_nat (n + 32) else c.

Fixpoint lower_string (s : string) : string :=
  match s with
  | EmptyString => EmptyString
  | String c s' => String (lower_ascii c) (lower_string s')
  end.

Definition bitcoin_quote : JsObj :=
  [ ("bitcoin",
      JsObject [ ("usd", JsNumber (67123 # 1));
                 ("usd_market_cap", JsNumber (1320000000000 # 1));
                 ("usd_24h_vol", JsNumber (31000000000 # 1));
                 ("usd_24h_change", JsNumber (-(3 # 2))) ]) ].

(** A provider that knows [bitcoin] only and answers [{}] for every other
    id, a clock that advances one second per reading, and a limiter that
    lets every request through. *)
Definition sample_env : Env :=
  {| Date_now := λ i, 1700000000000 + 1000 * Z.of_nat i;
     toISOString := λ _, "2023-11-14T22:13:20.000Z";
     toLowerCase := lower_string;
     Math_random_36 := λ i, if Nat.even i then "0.4fzyo82mvyr" else "0.k2j8x0q1p9c";
     axios_get := λ _ url,
       if String.eqb url (price_url "bitcoin") then Ok bitcoin_quote else Ok [];
     limiter_rejects := λ _ _ _, false |}.

(** The same surroundings with the provider unreachable. *)
Definition offline_env : Env :=
  {| Date_now := Date_now sample_env;
     toISOString := toISOString sample_env;
     toLowerCase := toLowerCase sample_env;
     Math_random_36 := Math_random_36 sample_env;
     axios_get := λ _ _, Throw {| message := "timeout of 10000ms exceeded" |};
     limiter_rejects := limiter_rejects sample_env |}.

Definition request (key : option string) (id : string) (b : JsObj) : Request :=
  {| header_x_api_key := key; params_id := id; body := b; ip := "203.0.113.7";
     req_tier := None; req_apiKey := None |}.

(** ** Notions used in the statements *)

(** [isFresh(entry, now)], in the specification's words. *)
Definition isFresh (entry : CacheEntry) (t : Z) : Prop :=
  t - timestamp entry < 60000.

(** Price requests served one after the other, each to completion; a
    request that throws does not stop the ones after it. *)
Fixpoint serve_all (queries : list string) (env : Env) (w : World)
  : list (Result JsObj) * World :=
  match queries with
  | [] => ([], w)
  | q :: rest =>
      let '(r, w1) := getCryptoPrices q env w in
      let '(rs, w2) := serve_all rest env w1 in
      (r :: rs, w2)
  end.

(** Every cached payload is what the provider answered, on some recorded
    call, to the query its key is made of. *)
Definition cache_consistent (env : Env) (w : World) : Prop :=
  ∀ k c, cache w !! k = Some c →
    ∃ Q i, k = cacheKey Q
         ∧ upstream_calls w !! i = Some (price_url Q)
         ∧ axios_get env i (price_url Q) = Ok (data c).

(** The state in which [getCryptoPrices ids] turns to the provider: the
    clock has been read once if there was an entry to test. *)
Definition before_fetch (ids : string) (w : World) : World :=
  match cache w !! cacheKey ids with
  | Some _ => tick w
  | None => w
  end.

(** The tier rule as the specification words it. *)
Definition classify_by_prefix (apiKey : string) : Tier :=
  if String.prefix "ent_" apiKey then enterprise
  else if String.prefix "pro_" apiKey then pro
  else free.

(** The request as [validateApiKey] hands it on. *)
Definition authenticated (req : Request) (k : string) : Request :=
  {| header_x_api_key := header_x_api_key req;
     params_id := params_id req; body := body req; ip := ip req;
     req_tier := Some (classify k); req_apiKey := Some k |}.

(** The options of the limiter built for the free tier. *)
Definition free_limiter_options : RateLimitOptions :=
  {| windowMs := 3600000; max := 100;
     rl_message :=
       JsObject [("error", JsString "Rate limit exceeded. Upgrade your plan.")] |}.

(** One step of the cache: untouched, or one whole entry put under the key
    of a query the provider has just answered. *)
Definition cache_step (env : Env) (w w' : World) : Prop :=
  cache w' = cache w
  ∨ ∃ Q d t,
      axios_get env (length (upstream_calls w)) (price_url Q) = Ok d
      ∧ cache w' = <[cacheKey Q := {| data := d; timestamp := t |}]> (cache w).

(** The two base-36 fragments a key is made of. *)
Definition token (env : Env) (w : World) : string :=
  substring 2 15 (Math_random_36 env (random_draws w))
  +:+ substring 2 15 (Math_random_36 env (S (random_draws w))).

(** What one call of [POST /generate-key] does when it issues a key with
    prefix [prefix] for the tier value [tier]. *)
Definition issues (env : Env) (w : World) (req : Request)
    (prefix : string) (tier : JsValue) : Prop :=
  let key := prefix +:+ token env w in
  String.prefix prefix key = true
  ∧ (post_generate_key req env w).1
    = Ok (res_json 200
            [ ("apiKey", JsString key);
              ("tier", tier);
              ("message",
                JsString "This is a test key. For production, please upgrade.") ])
  ∧ apiKeys (post_generate_key req env w).2
    = <[key := {| key_tier := tier; createdAt := Date_now env (clock_reads w) |}]>
        (apiKeys w)
  ∧ apiKeys (post_generate_key req env w).2 !! key
    = Some {| key_tier := tier; createdAt := Date_now env (clock_reads w) |}.

(** ** The open routes and the application as a whole *)

(** [app.get('/')]: the service description, a constant. *)
Definition root_handler : Handler := λ _,
  ret (res_json 200
         [ ("name", JsString "Crypto Price API");
           ("version", JsString "1.0.0");
           ("description", JsString "Real-time cryptocurrency price data API");
           ("endpoints",
             JsObject [ ("/prices", JsString "Get BTC and ETH prices");
                        ("/prices/:id", JsString "Get specific crypto price");
                        ("/health", JsString "Health check") ]);
           ("pricing",
             JsObject
               [ ("free", JsObject [ ("price", JsString "$0/month");
                                     ("requests", JsString "100/hour") ]);
                 ("pro", JsObject [ ("price", JsString "$9/month");
                                    ("requests", JsString "10,000/hour") ]);
                 ("enterprise", JsObject [ ("price", JsString "$49/month");
                                           ("requests", JsString "Unlimited") ]) ]);
           ("payment",
             JsObject
               [ ("crypto",
                   JsString "0xdef68D7130806C789fDD31B9DaC99364f54C8a9C (USDC on Base)") ]) ]).

(** [app.get('/health')]; [uptime] is what [process.uptime()] returns at
    the time of the call. *)
Definition health_handler (uptime : Q) : Handler := λ _,
  let* iso := new_Date_toISOString in
  ret (res_json 200
         [ ("status", JsString "ok");
           ("timestamp", JsString iso);
           ("uptime", JsNumber uptime) ]).

(** A request that Express has matched to one of the five routes. *)
Inductive Call : Type :=
  | GetRoot (req : Request)
  | GetHealth (req : Request) (uptime : Q)
  | GetPrices (req : Request)
  | GetPrice (req : Request)
  | PostGenerateKey (req : Request).

Definition app (c : Call) : M Response :=
  match c with
  | GetRoot req => route [] root_handler req
  | GetHealth req uptime => route [] (health_handler uptime) req
  | GetPrices req => get_prices req
  | GetPrice req => get_price req
  | PostGenerateKey req => post_generate_key req
  end.

Definition is_price_call (c : Call) : bool :=
  match c with
  | GetPrices _ | GetPrice _ => true
  | _ => false
  end.

(** The server handling matched requests one after the other, each to
    completion. *)
Fixpoint run (calls : list Call) (env : Env) (w : World)
  : list (Result Response) * World :=
  match calls with
  | [] => ([], w)
  | c :: rest =>
      let '(r, w1) := app c env w in
      let '(rs, w2) := run rest env w1 in
      (r :: rs, w2)
  end.

(** The state with another key store. *)
Definition with_apiKeys (keys : gmap string ApiKeyRecord) (w : World) : World :=
  {| cache := cache w; apiKeys := keys; console := console w;
     upstream_calls := upstream_calls w; limiter_calls := limiter_calls w;
     clock_reads := clock_reads w; random_draws := random_draws w |}.

(** Every stored key begins with the prefix its stored tier selects, and
    no stored tier is [undefined]. *)
Definition keys_consistent (w : World) : Prop :=
  ∀ k r, apiKeys w !! k = Some r →
    String.prefix (key_prefix (key_tier r)) k = true
    ∧ key_tier r ≠ JsUndefined.

(** How one call of [getCryptoPrices Q] can relate the state before to the
    result and the state after: a hit, a fetch that succeeded, or a fetch
    that failed. *)
Definition price_call_effect (env : Env) (Q : string)
    (w : World) (r : Result JsObj) (w' : World) : Prop :=
  (∃ c, cache w !! cacheKey Q = Some c
      ∧ Date_now env (clock_reads w) - timestamp c < CACHE_TTL
      ∧ r = Ok (data c)
      ∧ cache w' = cache w
      ∧ upstream_calls w' = upstream_calls w
      ∧ console w' = console w)
  ∨ (∃ d t, axios_get env (length (upstream_calls w)) (price_url Q) = Ok d
          ∧ r = Ok d
          ∧ cache w' = <[cacheKey Q := {| data := d; timestamp := t |}]> (cache w)
          ∧ upstream_calls w' = (upstream_calls w ++ [price_url Q])%list
          ∧ console w' = console w)
  ∨ (∃ e, axios_get env (length (upstream_calls w)) (price_url Q) = Throw e
        ∧ r = Throw e
        ∧ cache w' = cache w
        ∧ upstream_calls w' = (upstream_calls w ++ [price_url Q])%list
        ∧ console w' =
            (console w ++ ["Error fetching prices: " +:+ message e])%list).

(** The query a price route asks [getCryptoPrices] for. *)
Definition query_of (env : Env) (c : Call) : option string :=
  match c with
  | GetPrices _ => Some "bitcoin,ethereum"
  | GetPrice req => Some (toLowerCase env (params_id req))
  | _ => None
  end.

(** * Properties *)

(** ** The cache in front of the provider *)

Ltac run :=
  unfold getCryptoPrices, fetch_and_store, try_catch, bind, ret, throw,
    cache_get, cache_set, console_error, axios_data, now in *;
  simpl in *.

Lemma cacheKey_inj (Q Q' : string) : cacheKey Q = cacheKey Q' → Q = Q'.
Proof. unfold cacheKey. intros H. injection H as H. exact H. Qed.

Lemma fetch_and_store_ok env w ids d :
  axios_get env (length (upstream_calls w)) (price_url ids) = Ok d →
  fetch_and_store ids env w =
    (Ok d,
     stored (cacheKey ids)
       {| data := d; timestamp := Date_now env (clock_reads w) |}
       (tick (requested (price_url ids) w))).
Proof. intros H. run. rewrite H. reflexivity. Qed.

Lemma fetch_and_store_failed env w ids e :
  axios_get env (length (upstream_calls w)) (price_url ids) = Throw e →
  fetch_and_store ids env w =
    (Throw e,
     logged ("Error fetching prices: " +:+ message e)
       (requested (price_url ids) w)).
Proof. intros H. run. rewrite H. reflexivity. Qed.

Lemma getCryptoPrices_hit env w ids c :
  cache w !! cacheKey ids = Some c →
  Date_now env (clock_reads w) - timestamp c < CACHE_TTL →
  getCryptoPrices ids env w = (Ok (data c), tick w).
Proof.
  intros Hc Hfresh. run. rewrite Hc. simpl.
  rewrite bool_decide_eq_true_2 by assumption. reflexivity.
Qed.

Lemma getCryptoPrices_stale env w ids c :
  cache w !! cacheKey ids = Some c →
  ¬ Date_now env (clock_reads w) - timestamp c < CACHE_TTL →
  getCryptoPrices ids env w = fetch_and_store ids env (tick w).
Proof.
  intros Hc Hstale. unfold getCryptoPrices, bind, cache_get, now.
  rewrite Hc. rewrite bool_decide_eq_false_2 by assumption. reflexivity.
Qed.

Lemma getCryptoPrices_absent env w ids :
  cache w !! cacheKey ids = None →
  getCryptoPrices ids env w = fetch_and_store ids env w.
Proof.
  intros Hc. unfold getCryptoPrices, bind, cache_get. rewrite Hc. reflexivity.
Qed.

(** The three ways a call can go. *)
Lemma getCryptoPrices_cases env w ids :
  (∃ c, cache w !! cacheKey ids = Some c
      ∧ Date_now env (clock_reads w) - timestamp c < CACHE_TTL
      ∧ getCryptoPrices ids env w = (Ok (data c), tick w))
  ∨ ((∀ c, cache w !! cacheKey ids = Some c →
           ¬ Date_now env (clock_reads w) - timestamp c < CACHE_TTL)
     ∧ getCryptoPrices ids env w = fetch_and_store ids env (before_fetch ids w)).
Proof.
  unfold before_fetch.
  destruct (cache w !! cacheKey ids) as [c|] eqn:Hc.
  - destruct (decide (Date_now env (clock_reads w) - timestamp c < CACHE_TTL))
      as [Hf|Hf].
    + left. exists c. eauto using getCryptoPrices_hit.
    + right. split; [|eauto using getCryptoPrices_stale].
      intros c' [= <-]. exact Hf.
  - right. split; [discriminate|]. eauto using getCryptoPrices_absent.
Qed.

Lemma fetch_and_store_cases env w ids :
  (∃ d, axios_get env (length (upstream_calls w)) (price_url ids) = Ok d
      ∧ fetch_and_store ids env w =
          (Ok d,
           stored (cacheKey ids)
             {| data := d; timestamp := Date_now env (clock_reads w) |}
             (tick (requested (price_url ids) w))))
  ∨ (∃ e, axios_get env (length (upstream_calls w)) (price_url ids) = Throw e
      ∧ fetch_and_store ids env w =
          (Throw e,
           logged ("Error fetching prices: " +:+ message e)
             (requested (price_url ids) w))).
Proof.
  destruct (axios_get env (length (upstream_calls w)) (price_url ids))
    as [d|e] eqn:H.
  - left. eauto using fetch_and_store_ok.
  - right. eauto using fetch_and_store_failed.
Qed.

Lemma before_fetch_frame ids w :
  cache (before_fetch ids w) = cache w
  ∧ apiKeys (before_fetch ids w) = apiKeys w
  ∧ console (before_fetch ids w) = console w
  ∧ upstream_calls (before_fetch ids w) = upstream_calls w
  ∧ limiter_calls (before_fetch ids w) = limiter_calls w
  ∧ random_draws (before_fetch ids w) = random_draws w.
Proof.
  unfold before_fetch. destruct (cache w !! cacheKey ids); repeat split.
Qed.

Lemma app_singleton_neq {A} (l : list A) (x : A) : (l ++ [x])%list ≠ l.
Proof.
  intros H. apply (f_equal length) in H. rewrite length_app in H.
  simpl in H. lia.
Qed.

(** Claim C1.  The freshness window is 60,000 ms and a call is served
    without going upstream exactly when the cache holds an entry for the
    query with [now - timestamp < 60000].  Consequently, once a call for
    [Q] has fetched payload [p] from the provider and stored it at time
    [t], a later call for [Q] that still finds that entry and reads a
    clock value [t'] with [t' - t < 60000] returns the same [p] and adds
    nothing to the list of upstream calls. *)
Theorem fresh_entry_served_without_refetch :
  CACHE_TTL = 60000
  ∧ (∀ env w Q,
       upstream_calls (getCryptoPrices Q env w).2 = upstream_calls w
       ↔ ∃ c, cache w !! cacheKey Q = Some c
            ∧ isFresh c (Date_now env (clock_reads w)))
  ∧ (∀ env w Q p w1,
       getCryptoPrices Q env w = (Ok p, w1) →
       upstream_calls w1 ≠ upstream_calls w →
       ∃ t, cache w1 !! cacheKey Q = Some {| data := p; timestamp := t |}
          ∧ t = Date_now env (pred (clock_reads w1))
          ∧ ∀ env' w',
              cache w' !! cacheKey Q = cache w1 !! cacheKey Q →
              Date_now env' (clock_reads w') - t < 60000 →
              getCryptoPrices Q env' w' = (Ok p, tick w')
              ∧ upstream_calls (tick w') = upstream_calls w').
Proof.
  split; [reflexivity|]. split.
  - intros env w Q. unfold isFresh. split.
    + intros Hsame.
      destruct (getCryptoPrices_cases env w Q) as [(c & Hc & Hf & _)|[_ Hrun]];
        [eauto|].
      exfalso. rewrite Hrun in Hsame.
      destruct (before_fetch_frame Q w) as (_ & _ & _ & Hup & _).
      destruct (fetch_and_store_cases env (before_fetch Q w) Q)
        as [(d & _ & Hgo)|(e & _ & Hgo)];
        rewrite Hgo in Hsame; simpl in Hsame; rewrite Hup in Hsame;
        exact (app_singleton_neq _ _ Hsame).
    + intros (c & Hc & Hf).
      rewrite (getCryptoPrices_hit env w Q c Hc Hf). reflexivity.
  - intros env w Q p w1 Hrun Hcalled.
    destruct (getCryptoPrices_cases env w Q) as [(c & _ & _ & Hhit)|[_ Hfetch]].
    { rewrite Hhit in Hrun. injection Hrun as _ <-. contradiction. }
    rewrite Hfetch in Hrun.
    destruct (fetch_and_store_cases env (before_fetch Q w) Q)
      as [(d & _ & Hok)|(e & _ & Hfail)];
      [|rewrite Hfail in Hrun; discriminate].
    rewrite Hok in Hrun. injection Hrun as <- <-.
    exists (Date_now env (clock_reads (before_fetch Q w))).
    split; [simpl; apply lookup_insert_eq|]. split; [reflexivity|].
    intros env' w' Hentry Hfresh. split; [|reflexivity].
    simpl in Hentry. rewrite lookup_insert_eq in Hentry.
    exact (getCryptoPrices_hit env' w' Q _ Hentry Hfresh).
Qed.

Lemma fresh_entry_served_without_refetch_witness :
  let w1 := (getCryptoPrices "bitcoin" sample_env initial_world).2 in
  upstream_calls w1 = [price_url "bitcoin"]
  ∧ getCryptoPrices "bitcoin" sample_env w1 = (Ok bitcoin_quote, tick w1)
  ∧ upstream_calls (tick w1) = upstream_calls w1.
Proof.
  intros w1. split; [reflexivity|].
  destruct fresh_entry_served_without_refetch as (_ & _ & H).
  destruct (H sample_env initial_world "bitcoin" bitcoin_quote w1)
    as (t & _ & Ht & Hnext).
  - reflexivity.
  - discriminate.
  - apply (Hnext sample_env w1); [reflexivity|].
    rewrite Ht. vm_compute. reflexivity.
Defined.

(** Writes under another key are invisible at [k]. *)
Lemma lookup_stored_ne k k' e w :
  k ≠ k' → cache (stored k' e w) !! k = cache w !! k.
Proof. intros Hne. simpl. apply lookup_insert_ne. congruence. Qed.

Lemma getCryptoPrices_other_key env w Q Q' :
  Q ≠ Q' →
  cache (getCryptoPrices Q' env w).2 !! cacheKey Q = cache w !! cacheKey Q.
Proof.
  intros Hne.
  assert (cacheKey Q ≠ cacheKey Q') as Hk by (intros H%cacheKey_inj; done).
  destruct (getCryptoPrices_cases env w Q') as [(c & _ & _ & ->)|[_ ->]];
    [reflexivity|].
  destruct (before_fetch_frame Q' w) as (Hcache & _).
  destruct (fetch_and_store_cases env (before_fetch Q' w) Q')
    as [(d & _ & ->)|(e & _ & ->)].
  - simpl. rewrite lookup_insert_ne by congruence. by rewrite Hcache.
  - simpl. by rewrite Hcache.
Qed.

Lemma serve_all_other_keys env Q queries :
  ∀ w, Forall (λ q, q ≠ Q) queries →
       cache (serve_all queries env w).2 !! cacheKey Q = cache w !! cacheKey Q.
Proof.
  induction queries as [|q rest IH]; intros w Hall; [reflexivity|].
  inversion Hall as [|? ? Hq Hrest]; subst. simpl.
  destruct (getCryptoPrices q env w) as [r w1] eqn:Hone.
  specialize (IH w1 Hrest).
  destruct (serve_all rest env w1) as [rs w2]. simpl in *.
  rewrite IH. change w1 with (r, w1).2. rewrite <- Hone.
  apply getCryptoPrices_other_key. congruence.
Qed.

Lemma iter_tick_frame n w :
  cache (Nat.iter n tick w) = cache w
  ∧ apiKeys (Nat.iter n tick w) = apiKeys w
  ∧ console (Nat.iter n tick w) = console w
  ∧ upstream_calls (Nat.iter n tick w) = upstream_calls w
  ∧ clock_reads (Nat.iter n tick w) = (n + clock_reads w)%nat.
Proof.
  induction n as [|n IH]; [repeat split|].
  destruct IH as (? & ? & ? & ? & ?). simpl. repeat split; congruence.
Qed.

(** A run of hits: [n] calls in a row, each finding the same fresh entry. *)
Lemma serve_all_hits env Q c n :
  ∀ w, cache w !! cacheKey Q = Some c →
       (∀ i, (i < n)%nat →
             Date_now env (clock_reads w + i) - timestamp c < CACHE_TTL) →
       serve_all (replicate n Q) env w
       = (replicate n (Ok (data c)), Nat.iter n tick w).
Proof.
  induction n as [|n IH]; intros w Hc Hfresh; [reflexivity|].
  rewrite Nat.iter_succ_r. simpl.
  rewrite (getCryptoPrices_hit env w Q c Hc).
  2:{ specialize (Hfresh 0%nat). rewrite Nat.add_0_r in Hfresh.
      apply Hfresh. lia. }
  rewrite (IH (tick w)); [reflexivity|exact Hc|].
  intros i Hi. specialize (Hfresh (S i)).
  replace (clock_reads (tick w) + i)%nat with (clock_reads w + S i)%nat
    by (simpl; lia).
  apply Hfresh. lia.
Qed.

(** Claim C9.  Serving a fresh entry reads the cache and the clock and
    changes nothing else: the maps, the log and the list of upstream calls
    are those of the state before, and the entry keeps its timestamp.  So
    after any number of hits in a row the window is still the one that
    began at the entry's own timestamp: the first call that reads a clock
    value outside it goes to the provider. *)
Theorem cache_hit_leaves_entry_untouched env w Q c n :
  cache w !! cacheKey Q = Some c →
  (∀ i, (i < n)%nat →
        Date_now env (clock_reads w + i) - timestamp c < CACHE_TTL) →
  let w' := (serve_all (replicate n Q) env w).2 in
  (serve_all (replicate n Q) env w).1 = replicate n (Ok (data c))
  ∧ cache w' = cache w
  ∧ cache w' !! cacheKey Q = Some c
  ∧ apiKeys w' = apiKeys w
  ∧ console w' = console w
  ∧ upstream_calls w' = upstream_calls w
  ∧ clock_reads w' = (n + clock_reads w)%nat
  ∧ (¬ Date_now env (clock_reads w') - timestamp c < CACHE_TTL →
     upstream_calls (getCryptoPrices Q env w').2
     = (upstream_calls w' ++ [price_url Q])%list).
Proof.
  intros Hc Hfresh w'. subst w'.
  rewrite (serve_all_hits env Q c n w Hc Hfresh). simpl.
  destruct (iter_tick_frame n w) as (Hcache & Hkeys & Hlog & Hup & Hclock).
  repeat split; try assumption.
  - by rewrite Hcache.
  - intros Hexpired.
    assert (cache (Nat.iter n tick w) !! cacheKey Q = Some c) as Hc'
      by (by rewrite Hcache).
    rewrite (getCryptoPrices_stale env _ Q c Hc' Hexpired).
    destruct (fetch_and_store_cases env (tick (Nat.iter n tick w)) Q)
      as [(d & _ & ->)|(e & _ & ->)]; reflexivity.
Qed.

Lemma cache_hit_leaves_entry_untouched_witness :
  let w1 := (getCryptoPrices "bitcoin" sample_env initial_world).2 in
  let w' := (serve_all (replicate 3 "bitcoin") sample_env w1).2 in
  cache w' = cache w1
  ∧ timestamp <$> cache w' !! cacheKey "bitcoin" = Some 1700000000000
  ∧ upstream_calls w' = [price_url "bitcoin"].
Proof.
  intros w1 w'.
  destruct (cache_hit_leaves_entry_untouched sample_env w1 "bitcoin"
              {| data := bitcoin_quote; timestamp := 1700000000000 |} 3)
    as (_ & Hcache & Hentry & _ & _ & Hup & _).
  - reflexivity.
  - intros i Hi.
    assert (i = 0 ∨ i = 1 ∨ i = 2)%nat as [->|[->| ->]] by lia;
      vm_compute; reflexivity.
  - fold w' in Hcache, Hentry, Hup. split; [exact Hcache|].
    split; [by rewrite Hentry|]. by rewrite Hup.
Defined.

Lemma before_fetch_stored_ne Q Q' e w :
  Q ≠ Q' →
  before_fetch Q (stored (cacheKey Q') e w)
  = stored (cacheKey Q') e (before_fetch Q w).
Proof.
  intros Hne. unfold before_fetch.
  rewrite lookup_stored_ne by (intros H%cacheKey_inj; done).
  destruct (cache w !! cacheKey Q); reflexivity.
Qed.

(** An entry under another key changes neither what a call returns nor
    what it does; it is simply carried along. *)
Lemma getCryptoPrices_ignores_other_entry env w Q Q' e :
  Q ≠ Q' →
  getCryptoPrices Q env (stored (cacheKey Q') e w)
  = ((getCryptoPrices Q env w).1,
     stored (cacheKey Q') e (getCryptoPrices Q env w).2).
Proof.
  intros Hne.
  assert (cacheKey Q ≠ cacheKey Q') as Hk by (intros H%cacheKey_inj; done).
  pose proof (lookup_stored_ne _ _ e w Hk) as Hsame.
  destruct (getCryptoPrices_cases env w Q) as [(c & Hc & Hf & ->)|[Hstale ->]].
  - rewrite (getCryptoPrices_hit env (stored (cacheKey Q') e w) Q c);
      [reflexivity|by rewrite Hsame|exact Hf].
  - destruct (getCryptoPrices_cases env (stored (cacheKey Q') e w) Q)
      as [(c & Hc & Hf & _)|[_ ->]].
    { rewrite Hsame in Hc. destruct (Hstale c Hc Hf). }
    rewrite before_fetch_stored_ne by exact Hne.
    destruct (fetch_and_store_cases env (before_fetch Q w) Q)
      as [(d & Hd & ->)|(x & Hx & ->)].
    + rewrite (fetch_and_store_ok env _ Q d) by exact Hd.
      simpl. unfold stored. simpl. do 2 f_equal.
      apply insert_insert_ne. exact Hk.
    + rewrite (fetch_and_store_failed env _ Q x) by exact Hx. reflexivity.
Qed.

Lemma cache_consistent_more_calls env w w' :
  cache w' = cache w →
  (∃ l, upstream_calls w' = (upstream_calls w ++ l)%list) →
  cache_consistent env w → cache_consistent env w'.
Proof.
  intros Hcache [l Hup] Hinv k c Hk. rewrite Hcache in Hk.
  destruct (Hinv k c Hk) as (Q & i & -> & Hi & Hans).
  exists Q, i. rewrite Hup. eauto using lookup_app_l_Some.
Qed.

Lemma getCryptoPrices_consistent env w Q :
  cache_consistent env w → cache_consistent env (getCryptoPrices Q env w).2.
Proof.
  intros Hinv.
  destruct (getCryptoPrices_cases env w Q) as [(c & _ & _ & ->)|[_ ->]].
  { apply (cache_consistent_more_calls env w); [reflexivity| |exact Hinv].
    exists []. simpl. by rewrite app_nil_r. }
  destruct (before_fetch_frame Q w) as (Hcache & _ & _ & Hup & _).
  assert (cache_consistent env (before_fetch Q w)) as Hinv0.
  { apply (cache_consistent_more_calls env w); [exact Hcache| |exact Hinv].
    exists []. rewrite Hup. by rewrite app_nil_r. }
  clear Hinv Hcache Hup. generalize dependent (before_fetch Q w). intros w0 Hinv0.
  destruct (fetch_and_store_cases env w0 Q) as [(d & Hd & ->)|(x & _ & ->)].
  - intros k c Hk. simpl in Hk.
    destruct (decide (cacheKey Q = k)) as [<-|Hne].
    + rewrite lookup_insert_eq in Hk. injection Hk as <-.
      exists Q, (length (upstream_calls w0)). simpl.
      split; [reflexivity|]. split; [|exact Hd].
      by apply list_lookup_middle.
    + rewrite lookup_insert_ne in Hk by exact Hne.
      destruct (Hinv0 k c Hk) as (Q0 & i & -> & Hi & Hans).
      exists Q0, i. simpl. eauto using lookup_app_l_Some.
  - apply (cache_consistent_more_calls env w0); [reflexivity| |exact Hinv0].
    by exists [price_url Q].
Qed.

(** Claim C8.  The cache key determines the query string, so distinct
    queries (for instance ["bitcoin,ethereum"] and ["bitcoin"]) live under
    distinct keys.  A call, or any run of calls, for other queries leaves
    the entry of [Q] as it was; an entry stored under another query's key
    has no influence on what a call for [Q] returns or does.  Every cached
    payload is the provider's answer to the query of its own key: this
    holds of the empty cache and every call preserves it. *)
Theorem cache_keyed_by_exact_query :
  (∀ Q Q', cacheKey Q = cacheKey Q' → Q = Q')
  ∧ cacheKey "bitcoin,ethereum" ≠ cacheKey "bitcoin"
  ∧ (∀ env w Q Q', Q ≠ Q' →
       cache (getCryptoPrices Q' env w).2 !! cacheKey Q = cache w !! cacheKey Q)
  ∧ (∀ env w Q others, Forall (λ q, q ≠ Q) others →
       cache (serve_all others env w).2 !! cacheKey Q = cache w !! cacheKey Q)
  ∧ (∀ env w Q Q' e, Q ≠ Q' →
       getCryptoPrices Q env (stored (cacheKey Q') e w)
       = ((getCryptoPrices Q env w).1,
          stored (cacheKey Q') e (getCryptoPrices Q env w).2))
  ∧ (∀ env, cache_consistent env initial_world)
  ∧ (∀ env w Q, cache_consistent env w →
       cache_consistent env (getCryptoPrices Q env w).2).
Proof.
  split; [exact cacheKey_inj|]. split; [discriminate|].
  split; [exact getCryptoPrices_other_key|].
  split; [intros; by apply serve_all_other_keys|].
  split; [exact getCryptoPrices_ignores_other_entry|].
  split; [|exact getCryptoPrices_consistent].
  intros env k c Hk. simpl in Hk. by rewrite lookup_empty in Hk.
Qed.

Lemma cache_keyed_by_exact_query_witness :
  let w1 := (getCryptoPrices "bitcoin,ethereum" sample_env initial_world).2 in
  cache (getCryptoPrices "bitcoin" sample_env w1).2 !! cacheKey "bitcoin,ethereum"
  = cache w1 !! cacheKey "bitcoin,ethereum"
  ∧ cache_consistent sample_env (getCryptoPrices "bitcoin" sample_env w1).2.
Proof.
  intros w1.
  destruct cache_keyed_by_exact_query as (_ & _ & Hw & _ & _ & H0 & Hstep).
  split.
  - apply Hw. discriminate.
  - apply Hstep. apply Hstep. apply H0.
Defined.

(** ** The handlers and routes, unfolded *)

Lemma prices_handler_unfold req env w :
  prices_handler req env w =
  match getCryptoPrices "bitcoin,ethereum" env w with
  | (Ok prices, w1) =>
      (Ok (res_json 200
             (success_body req prices
                (toISOString env (Date_now env (clock_reads w1))))),
       tick w1)
  | (Throw error, w1) =>
      (Ok (res_json 500
             [ ("error", JsString "Failed to fetch prices");
               ("message", JsString (message error)) ]),
       w1)
  end.
Proof.
  unfold prices_handler, try_catch, bind.
  destruct (getCryptoPrices "bitcoin,ethereum" env w) as [[prices|error] w1];
    reflexivity.
Qed.

Lemma price_handler_unfold req env w :
  price_handler req env w =
  let id := params_id req in
  match getCryptoPrices (toLowerCase env id) env w with
  | (Ok prices, w1) =>
      if negb (truthy (get_property prices (toLowerCase env id)))
      then (Ok (not_found_response id), w1)
      else
        (Ok (res_json 200
               (success_body req prices
                  (toISOString env (Date_now env (clock_reads w1))))),
         tick w1)
  | (Throw error, w1) =>
      (Ok (res_json 500
             [ ("error", JsString "Failed to fetch price");
               ("message", JsString (message error)) ]),
       w1)
  end.
Proof.
  unfold price_handler, try_catch, bind, lower, ret. simpl.
  destruct (getCryptoPrices (toLowerCase env (params_id req)) env w)
    as [[prices|error] w1]; [|reflexivity].
  destruct (truthy (get_property prices (toLowerCase env (params_id req))));
    reflexivity.
Qed.

(** Both price routes: the key check, then the limiter built for [free],
    then the handler. *)
Lemma guarded_route_unfold handler req env w :
  route [validateApiKey; createRateLimit free] handler req env w =
  match header_x_api_key req with
  | Some k =>
      if String.eqb k "" then (Ok missing_key_response, w)
      else if limiter_rejects env (length (limiter_calls w))
                free_limiter_options (authenticated req k)
      then (Ok {| status := 429; json := rl_message free_limiter_options |},
            consulted free_limiter_options w)
      else handler (authenticated req k) env (consulted free_limiter_options w)
  | None => (Ok missing_key_response, w)
  end.
Proof.
  destruct req as [[k|] id b addr t a]; [|reflexivity].
  unfold route, validateApiKey. simpl.
  destruct (String.eqb k ""); reflexivity.
Qed.

Lemma generate_key_unfold req env w :
  post_generate_key req env w =
  let tier := body_tier (body req) in
  let key :=
    key_prefix tier
    +:+ substring 2 15 (Math_random_36 env (random_draws w))
    +:+ substring 2 15 (Math_random_36 env (S (random_draws w))) in
  (Ok (res_json 200
         [ ("apiKey", JsString key);
           ("tier", tier);
           ("message",
             JsString "This is a test key. For production, please upgrade.") ]),
   issued key
     {| key_tier := tier; createdAt := Date_now env (clock_reads w) |}
     (tick (drawn (drawn w)))).
Proof. reflexivity. Qed.

(** ** Who writes the cache *)

Lemma getCryptoPrices_cache_step env w Q :
  cache_step env w (getCryptoPrices Q env w).2.
Proof.
  destruct (getCryptoPrices_cases env w Q) as [(c & _ & _ & ->)|[_ ->]];
    [by left|].
  destruct (before_fetch_frame Q w) as (Hcache & _ & _ & Hup & _).
  destruct (fetch_and_store_cases env (before_fetch Q w) Q)
    as [(d & Hd & ->)|(x & _ & ->)].
  - right. exists Q, d, (Date_now env (clock_reads (before_fetch Q w))).
    rewrite <- Hup, <- Hcache. split; [exact Hd|reflexivity].
  - left. exact Hcache.
Qed.

Lemma prices_handler_cache_step req env w :
  cache_step env w (prices_handler req env w).2.
Proof.
  rewrite prices_handler_unfold.
  pose proof (getCryptoPrices_cache_step env w "bitcoin,ethereum") as H.
  destruct (getCryptoPrices "bitcoin,ethereum" env w) as [[p|e] w1]; exact H.
Qed.

Lemma price_handler_cache_step req env w :
  cache_step env w (price_handler req env w).2.
Proof.
  rewrite price_handler_unfold. simpl.
  pose proof (getCryptoPrices_cache_step env w
                (toLowerCase env (params_id req))) as H.
  destruct (getCryptoPrices _ env w) as [[p|e] w1]; [|exact H].
  destruct (negb _); exact H.
Qed.

Lemma guarded_route_cache_step handler req env w :
  (∀ req' w0, cache_step env w0 (handler req' env w0).2) →
  cache_step env w
    (route [validateApiKey; createRateLimit free] handler req env w).2.
Proof.
  intros Hh. rewrite guarded_route_unfold.
  destruct (header_x_api_key req) as [k|]; [|by left].
  destruct (String.eqb k ""); [by left|].
  destruct (limiter_rejects _ _ _ _); [by left|].
  exact (Hh (authenticated req k) (consulted free_limiter_options w)).
Qed.

(** Claim C6.  When the provider fails, the call rethrows and the cache,
    any stale entry for the key included, is exactly what it was.  When the
    provider answers, the cache afterwards is the one before with a single
    whole [{ data, timestamp }] entry put under the query's key.  No route
    of the server changes the cache in any other way. *)
Theorem cache_written_only_after_successful_fetch :
  (∀ env w Q e,
     (∀ c, cache w !! cacheKey Q = Some c →
           ¬ Date_now env (clock_reads w) - timestamp c < CACHE_TTL) →
     axios_get env (length (upstream_calls w)) (price_url Q) = Throw e →
     (getCryptoPrices Q env w).1 = Throw e
     ∧ cache (getCryptoPrices Q env w).2 = cache w)
  ∧ (∀ env w Q d,
       (∀ c, cache w !! cacheKey Q = Some c →
             ¬ Date_now env (clock_reads w) - timestamp c < CACHE_TTL) →
       axios_get env (length (upstream_calls w)) (price_url Q) = Ok d →
       (getCryptoPrices Q env w).1 = Ok d
       ∧ cache (getCryptoPrices Q env w).2
         = <[cacheKey Q :=
               {| data := d;
                  timestamp := Date_now env (clock_reads (before_fetch Q w)) |}]>
             (cache w))
  ∧ (∀ env w req,
       cache_step env w (get_prices req env w).2
       ∧ cache_step env w (get_price req env w).2
       ∧ cache (post_generate_key req env w).2 = cache w).
Proof.
  split; [|split].
  - intros env w Q e Hstale He.
    destruct (getCryptoPrices_cases env w Q) as [(c & Hc & Hf & _)|[_ ->]];
      [destruct (Hstale c Hc Hf)|].
    destruct (before_fetch_frame Q w) as (Hcache & _ & _ & Hup & _).
    rewrite (fetch_and_store_failed env _ Q e) by (by rewrite Hup).
    split; [reflexivity|exact Hcache].
  - intros env w Q d Hstale Hd.
    destruct (getCryptoPrices_cases env w Q) as [(c & Hc & Hf & _)|[_ ->]];
      [destruct (Hstale c Hc Hf)|].
    destruct (before_fetch_frame Q w) as (Hcache & _ & _ & Hup & _).
    rewrite (fetch_and_store_ok env _ Q d) by (by rewrite Hup).
    split; [reflexivity|]. simpl. by rewrite Hcache.
  - intros env w req. split; [|split].
    + apply guarded_route_cache_step. intros. apply prices_handler_cache_step.
    + apply guarded_route_cache_step. intros. apply price_handler_cache_step.
    + reflexivity.
Qed.

Lemma cache_written_only_after_successful_fetch_witness :
  let w1 := (getCryptoPrices "bitcoin" sample_env initial_world).2 in
  let w2 := Nat.iter 60 tick w1 in
  (getCryptoPrices "bitcoin" offline_env w2).1
  = Throw {| message := "timeout of 10000ms exceeded" |}
  ∧ cache (getCryptoPrices "bitcoin" offline_env w2).2 = cache w1
  ∧ cache w1 = {[ cacheKey "bitcoin" :=
                    {| data := bitcoin_quote; timestamp := 1700000000000 |} ]}.
Proof.
  intros w1 w2.
  destruct cache_written_only_after_successful_fetch as (Hfail & Hok & _).
  destruct (Hfail offline_env w2 "bitcoin"
              {| message := "timeout of 10000ms exceeded" |})
    as [Hthrow Hsame].
  - intros c Hc. vm_compute in Hc. injection Hc as <-. vm_compute. discriminate.
  - reflexivity.
  - split; [exact Hthrow|]. split; [exact Hsame|].
    destruct (Hok sample_env initial_world "bitcoin" bitcoin_quote)
      as [_ Hput].
    + intros c Hc. vm_compute in Hc. discriminate.
    + reflexivity.
    + fold w1 in Hput. rewrite Hput. reflexivity.
Defined.

(** ** Upstream failure *)

Lemma getCryptoPrices_failed env w Q e :
  (∀ c, cache w !! cacheKey Q = Some c →
        ¬ Date_now env (clock_reads w) - timestamp c < CACHE_TTL) →
  axios_get env (length (upstream_calls w)) (price_url Q) = Throw e →
  ∃ w', getCryptoPrices Q env w = (Throw e, w')
      ∧ cache w' = cache w
      ∧ upstream_calls w' = (upstream_calls w ++ [price_url Q])%list
      ∧ console w' = (console w ++ ["Error fetching prices: " +:+ message e])%list.
Proof.
  intros Hstale He.
  destruct (getCryptoPrices_cases env w Q) as [(c & Hc & Hf & _)|[_ ->]];
    [destruct (Hstale c Hc Hf)|].
  destruct (before_fetch_frame Q w) as (Hcache & _ & Hlog & Hup & _).
  rewrite (fetch_and_store_failed env _ Q e) by (by rewrite Hup).
  eexists. split; [reflexivity|]. simpl. by rewrite Hcache, Hlog, Hup.
Qed.

(** Claim C5.  Suppose the cache has no fresh entry for the query and the
    provider's answer to the next outbound call is a failure [e].  Then
    [getCryptoPrices] makes exactly that one call, writes one line with
    [e]'s message to the error log and rethrows [e]; and a request that
    reaches either price handler (key present, limiter passed) is answered
    with status 500 and a body whose [error] field names the failure and
    whose [message] field is [e]'s message. *)
Theorem upstream_failure_single_attempt_500 env w Q e :
  (∀ c, cache w !! cacheKey Q = Some c →
        ¬ Date_now env (clock_reads w) - timestamp c < CACHE_TTL) →
  axios_get env (length (upstream_calls w)) (price_url Q) = Throw e →
  ((getCryptoPrices Q env w).1 = Throw e
   ∧ upstream_calls (getCryptoPrices Q env w).2
     = (upstream_calls w ++ [price_url Q])%list
   ∧ console (getCryptoPrices Q env w).2
     = (console w ++ ["Error fetching prices: " +:+ message e])%list)
  ∧ (∀ req k,
       header_x_api_key req = Some k → k ≠ "" →
       limiter_rejects env (length (limiter_calls w)) free_limiter_options
         (authenticated req k) = false →
       (Q = "bitcoin,ethereum" →
        (get_prices req env w).1
        = Ok (res_json 500
                [ ("error", JsString "Failed to fetch prices");
                  ("message", JsString (message e)) ])
        ∧ upstream_calls (get_prices req env w).2
          = (upstream_calls w ++ [price_url Q])%list
        ∧ console (get_prices req env w).2
          = (console w ++ ["Error fetching prices: " +:+ message e])%list)
       ∧ (Q = toLowerCase env (params_id req) →
          (get_price req env w).1
          = Ok (res_json 500
                  [ ("error", JsString "Failed to fetch price");
                    ("message", JsString (message e)) ])
          ∧ upstream_calls (get_price req env w).2
            = (upstream_calls w ++ [price_url Q])%list
          ∧ console (get_price req env w).2
            = (console w ++ ["Error fetching prices: " +:+ message e])%list)).
Proof.
  intros Hstale He. split.
  - destruct (getCryptoPrices_failed env w Q e Hstale He)
      as (w' & -> & _ & Hup & Hlog). auto.
  - intros req k Hkey Hk Hpass.
    assert (String.eqb k "" = false) as Hnonempty
      by (by apply String.eqb_neq).
    destruct (getCryptoPrices_failed env (consulted free_limiter_options w) Q e
                Hstale He) as (w' & Hrun & _ & Hup & Hlog).
    split; intros ->.
    + unfold get_prices.
      rewrite guarded_route_unfold, Hkey, Hnonempty, Hpass.
      rewrite prices_handler_unfold, Hrun. auto.
    + unfold get_price.
      rewrite guarded_route_unfold, Hkey, Hnonempty, Hpass.
      rewrite price_handler_unfold. simpl. simpl in Hrun. rewrite Hrun. auto.
Qed.

Lemma upstream_failure_single_attempt_500_witness :
  let req := request (Some "pro_42") "Bitcoin" [] in
  let e := {| message := "timeout of 10000ms exceeded" |} in
  (getCryptoPrices "bitcoin" offline_env initial_world).1 = Throw e
  ∧ (get_price req offline_env initial_world).1
    = Ok (res_json 500
            [ ("error", JsString "Failed to fetch price");
              ("message", JsString "timeout of 10000ms exceeded") ])
  ∧ upstream_calls (get_price req offline_env initial_world).2
    = [price_url "bitcoin"].
Proof.
  intros req e.
  destruct (upstream_failure_single_attempt_500
              offline_env initial_world "bitcoin" e) as [(Hthrow & _) Hroutes].
  - intros c Hc. vm_compute in Hc. discriminate.
  - reflexivity.
  - split; [exact Hthrow|].
    destruct (Hroutes req "pro_42") as [_ Hid];
      [reflexivity|discriminate|reflexivity|].
    destruct Hid as (Hresp & Hup & _); [reflexivity|].
    split; [exact Hresp|exact Hup].
Defined.

(** ** API keys and tiers *)

Lemma classify_by_prefix_eq k : classify k = classify_by_prefix k.
Proof. reflexivity. Qed.

(** Only the first four characters of a key matter. *)
Lemma classify_first_four k : classify k = classify (String.substring 0 4 k).
Proof.
  unfold classify, startsWith.
  destruct k as [|a [|b [|c [|d k]]]]; try reflexivity.
  cbn [String.prefix String.substring].
  repeat (destruct (Ascii.ascii_dec _ _); try reflexivity);
    destruct k; reflexivity.
Qed.

Lemma validateApiKey_rejects req next env w :
  header_x_api_key req = None ∨ header_x_api_key req = Some "" →
  validateApiKey req next env w = (Ok missing_key_response, w).
Proof. unfold validateApiKey. intros [-> | ->]; reflexivity. Qed.

Lemma validateApiKey_accepts req next env w k :
  header_x_api_key req = Some k → k ≠ "" →
  validateApiKey req next env w = next (authenticated req k) env w.
Proof.
  intros Hkey Hk. unfold validateApiKey, authenticated. rewrite Hkey. simpl.
  apply String.eqb_neq in Hk. rewrite Hk. reflexivity.
Qed.

(** Claim C2, as stated, fails for the empty key: a request whose
    [x-api-key] header is present with an empty value supplies a key
    string that starts with neither prefix, yet it is not classified as
    [free]; it is answered 401 like a request without the header. *)
Lemma supplied_empty_key_is_not_classified :
  ¬ (∀ (k : string) req next env w,
       header_x_api_key req = Some k →
       validateApiKey req next env w
       = next {| header_x_api_key := header_x_api_key req;
                 params_id := params_id req; body := body req; ip := ip req;
                 req_tier := Some (classify_by_prefix k);
                 req_apiKey := Some k |} env w).
Proof.
  intros H.
  specialize (H "" (request (Some "") "" []) (λ _, ret (res_json 200 []))
                sample_env initial_world eq_refl).
  vm_compute in H. discriminate H.
Qed.

(** Claim C2, amended.  For every non-empty key string the request is
    handed on with the tier its prefix gives: [enterprise] for ["ent_"],
    [pro] for ["pro_"], [free] otherwise, a function of the first four
    characters alone.  When the header is absent, or present with the
    empty string as its value, the request is answered with status 401
    and an [error] body, the next stage is never entered and the state is
    unchanged. *)
Theorem tier_follows_prefix_of_nonempty_key req next env w :
  (∀ k, header_x_api_key req = Some k → k ≠ "" →
     validateApiKey req next env w = next (authenticated req k) env w
     ∧ req_apiKey (authenticated req k) = Some k
     ∧ req_tier (authenticated req k) = Some (classify_by_prefix k)
     ∧ (String.prefix "ent_" k = true → classify k = enterprise)
     ∧ (String.prefix "ent_" k = false → String.prefix "pro_" k = true →
        classify k = pro)
     ∧ (String.prefix "ent_" k = false → String.prefix "pro_" k = false →
        classify k = free)
     ∧ classify k = classify (String.substring 0 4 k))
  ∧ (header_x_api_key req = None ∨ header_x_api_key req = Some "" →
     validateApiKey req next env w = (Ok missing_key_response, w)
     ∧ status missing_key_response = 401
     ∧ ∃ body, json missing_key_response = JsObject body
             ∧ own_property body "error" = Some (JsString "API key required")).
Proof.
  split.
  - intros k Hkey Hk.
    split; [by apply validateApiKey_accepts|].
    split; [reflexivity|]. split; [reflexivity|].
    unfold classify, startsWith.
    split; [by intros ->|]. split; [by intros -> ->|].
    split; [by intros -> ->|]. apply classify_first_four.
  - intros Hmissing. split; [by apply validateApiKey_rejects|].
    split; [reflexivity|]. eexists. split; reflexivity.
Qed.

Lemma tier_follows_prefix_of_nonempty_key_witness :
  let req := request (Some "ent_7f3a") "" [] in
  let next : Handler := λ r, ret (res_json 200 [("tier", tier_value r)]) in
  validateApiKey req next sample_env initial_world
  = (Ok (res_json 200 [("tier", JsString "enterprise")]), initial_world)
  ∧ validateApiKey (request None "" []) next sample_env initial_world
    = (Ok missing_key_response, initial_world).
Proof.
  intros req next. split.
  - destruct (tier_follows_prefix_of_nonempty_key req next
                sample_env initial_world) as [Hsome _].
    destruct (Hsome "ent_7f3a") as (-> & _); [reflexivity|discriminate|].
    reflexivity.
  - destruct (tier_follows_prefix_of_nonempty_key (request None "" []) next
                sample_env initial_world) as [_ Hnone].
    destruct Hnone as (-> & _); [by left|reflexivity].
Defined.

(** ** Rate limiting *)

(** What [getCryptoPrices] never touches. *)
Lemma getCryptoPrices_frame env w Q :
  apiKeys (getCryptoPrices Q env w).2 = apiKeys w
  ∧ limiter_calls (getCryptoPrices Q env w).2 = limiter_calls w
  ∧ random_draws (getCryptoPrices Q env w).2 = random_draws w.
Proof.
  destruct (getCryptoPrices_cases env w Q) as [(c & _ & _ & ->)|[_ ->]];
    [repeat split|].
  destruct (before_fetch_frame Q w) as (_ & Hkeys & _ & _ & Hlim & Hrand).
  destruct (fetch_and_store_cases env (before_fetch Q w) Q)
    as [(d & _ & ->)|(x & _ & ->)]; simpl; auto.
Qed.

Lemma prices_handler_limiter_calls req env w :
  limiter_calls (prices_handler req env w).2 = limiter_calls w.
Proof.
  rewrite prices_handler_unfold.
  destruct (getCryptoPrices_frame env w "bitcoin,ethereum") as (_ & H & _).
  destruct (getCryptoPrices "bitcoin,ethereum" env w) as [[p|e] w1]; exact H.
Qed.

Lemma price_handler_limiter_calls req env w :
  limiter_calls (price_handler req env w).2 = limiter_calls w.
Proof.
  rewrite price_handler_unfold. simpl.
  destruct (getCryptoPrices_frame env w (toLowerCase env (params_id req)))
    as (_ & H & _).
  destruct (getCryptoPrices _ env w) as [[p|e] w1]; [|exact H].
  destruct (negb _); exact H.
Qed.

(** Claim C3.  The table is [free: 1 h / 100], [pro: 1 h / 10000],
    [enterprise: 1 h / 100000].  On [GET /prices] and [GET /prices/:id],
    every request that carries a key, whatever tier that key resolves to,
    is put to the limiter exactly once, with the options built from the
    [free] row (window 3,600,000 ms, at most 100); if the limiter turns it
    away the answer is 429 with the upgrade message. *)
Theorem price_routes_apply_free_limiter :
  limits free = {| limit_windowMs := 3600000; limit_max := 100 |}
  ∧ limits pro = {| limit_windowMs := 3600000; limit_max := 10000 |}
  ∧ limits enterprise = {| limit_windowMs := 3600000; limit_max := 100000 |}
  ∧ createRateLimit free = rateLimit free_limiter_options
  ∧ windowMs free_limiter_options = limit_windowMs (limits free)
  ∧ max free_limiter_options = limit_max (limits free)
  ∧ ∀ env w req k (route_ : Handler),
      route_ = get_prices ∨ route_ = get_price →
      header_x_api_key req = Some k → k ≠ "" →
      limiter_calls (route_ req env w).2
      = (limiter_calls w ++ [free_limiter_options])%list
      ∧ (limiter_rejects env (length (limiter_calls w)) free_limiter_options
           (authenticated req k) = true →
         route_ req env w
         = (Ok {| status := 429;
                  json := JsObject [("error",
                            JsString "Rate limit exceeded. Upgrade your plan.")] |},
            consulted free_limiter_options w)).
Proof.
  repeat (split; [reflexivity|]).
  intros env w req k route_ Hroute Hkey Hk.
  assert (String.eqb k "" = false) as Hnonempty by (by apply String.eqb_neq).
  destruct Hroute as [-> | ->].
  - unfold get_prices. rewrite guarded_route_unfold, Hkey, Hnonempty.
    destruct (limiter_rejects _ _ _ _); [split; reflexivity|].
    split; [|discriminate]. by rewrite prices_handler_limiter_calls.
  - unfold get_price. rewrite guarded_route_unfold, Hkey, Hnonempty.
    destruct (limiter_rejects _ _ _ _); [split; reflexivity|].
    split; [|discriminate]. by rewrite price_handler_limiter_calls.
Qed.

Lemma price_routes_apply_free_limiter_witness :
  let req := request (Some "ent_7f3a") "bitcoin" [] in
  req_tier (authenticated req "ent_7f3a") = Some enterprise
  ∧ limiter_calls (get_prices req sample_env initial_world).2
    = [free_limiter_options]
  ∧ limiter_calls (get_price req sample_env initial_world).2
    = [free_limiter_options].
Proof.
  intros req. split; [reflexivity|].
  destruct price_routes_apply_free_limiter as (_ & _ & _ & _ & _ & _ & H).
  split.
  - destruct (H sample_env initial_world req "ent_7f3a" get_prices)
      as [Hcalls _]; [by left|reflexivity|discriminate|exact Hcalls].
  - destruct (H sample_env initial_world req "ent_7f3a" get_price)
      as [Hcalls _]; [by right|reflexivity|discriminate|exact Hcalls].
Defined.

(** ** Issuing keys *)

Lemma prefix_app (p s : string) : String.prefix p (p +:+ s) = true.
Proof.
  induction p as [|a p IH]; [by destruct s|].
  change (String a p +:+ s) with (String a (p +:+ s)).
  cbn [String.prefix].
  destruct (Ascii.ascii_dec a a); [exact IH|congruence].
Qed.

Lemma get_property_own o k v : own_property o k = Some v → get_property o k = v.
Proof. unfold get_property. by intros ->. Qed.

Lemma generate_key_issues env w req :
  issues env w req (key_prefix (body_tier (body req))) (body_tier (body req)).
Proof.
  unfold issues. split; [apply prefix_app|].
  rewrite generate_key_unfold. simpl. unfold token.
  split; [reflexivity|]. split; [reflexivity|]. apply lookup_insert_eq.
Qed.

(** Claim C7.  [POST /generate-key] answers with a key made of the prefix
    for the requested tier followed by two base-36 fragments, ["pro_"]
    for ["pro"], ["ent_"] for ["enterprise"], ["free_"] for ["free"] and
    for a body without a [tier] field, and stores under that key a record
    holding the tier and the time of issue.  In particular a body
    [{tier: "pro"}] always yields a key that begins with ["pro_"]. *)
Theorem generate_key_prefix_follows_tier env w req :
  (own_property (body req) "tier" = Some (JsString "pro") →
   issues env w req "pro_" (JsString "pro"))
  ∧ (own_property (body req) "tier" = Some (JsString "enterprise") →
     issues env w req "ent_" (JsString "enterprise"))
  ∧ (own_property (body req) "tier" = Some (JsString "free") →
     issues env w req "free_" (JsString "free"))
  ∧ (own_property (body req) "tier" = None →
     issues env w req "free_" (JsString "free")).
Proof.
  pose proof (generate_key_issues env w req) as G. unfold body_tier in G.
  split; [|split; [|split]]; intros H.
  1-3: rewrite (get_property_own _ _ _ H) in G; exact G.
  unfold get_property in G. rewrite H in G. exact G.
Qed.

Lemma generate_key_prefix_follows_tier_witness :
  (post_generate_key (request None "" [("tier", JsString "pro")])
     sample_env initial_world).1
  = Ok (res_json 200
          [ ("apiKey", JsString "pro_4fzyo82mvyrk2j8x0q1p9c");
            ("tier", JsString "pro");
            ("message",
              JsString "This is a test key. For production, please upgrade.") ])
  ∧ (post_generate_key (request None "" []) sample_env initial_world).1
    = Ok (res_json 200
            [ ("apiKey", JsString "free_4fzyo82mvyrk2j8x0q1p9c");
              ("tier", JsString "free");
              ("message",
                JsString "This is a test key. For production, please upgrade.") ]).
Proof.
  split.
  - destruct (generate_key_prefix_follows_tier sample_env initial_world
                (request None "" [("tier", JsString "pro")])) as (H & _).
    destruct H as (_ & Hresp & _); [reflexivity|exact Hresp].
  - destruct (generate_key_prefix_follows_tier sample_env initial_world
                (request None "" [])) as (_ & _ & _ & H).
    destruct H as (_ & Hresp & _); [reflexivity|exact Hresp].
Defined.

Lemma key_prefix_other s :
  s ≠ "pro" → s ≠ "enterprise" → key_prefix (JsString s) = "free_".
Proof.
  intros Hpro Hent. unfold key_prefix, is_string.
  apply String.eqb_neq in Hpro, Hent. by rewrite Hpro, Hent.
Qed.

(** Claim C10.  A body whose [tier] is a string other than ["pro"] and
    ["enterprise"] gets a key that begins with ["free_"], which the key
    check will classify as [free]; the stored record and the [tier] field
    of the response carry the supplied string unchanged. *)
Theorem unrecognised_tier_gets_free_key_but_is_echoed env w req s :
  own_property (body req) "tier" = Some (JsString s) →
  s ≠ "pro" → s ≠ "enterprise" →
  let key := "free_" +:+ token env w in
  issues env w req "free_" (JsString s)
  ∧ key_tier <$> apiKeys (post_generate_key req env w).2 !! key
    = Some (JsString s)
  ∧ classify key = free
  ∧ ∀ req' next env' w',
      header_x_api_key req' = Some key →
      validateApiKey req' next env' w' = next (authenticated req' key) env' w'
      ∧ req_tier (authenticated req' key) = Some free.
Proof.
  intros H Hpro Hent key.
  pose proof (generate_key_issues env w req) as G. unfold body_tier in G.
  rewrite (get_property_own _ _ _ H) in G.
  rewrite (key_prefix_other s Hpro Hent) in G.
  split; [exact G|]. split.
  { destruct G as (_ & _ & _ & Hstored). unfold key. by rewrite Hstored. }
  split; [reflexivity|].
  intros req' next env' w' Hkey. split; [|reflexivity].
  apply validateApiKey_accepts; [exact Hkey|discriminate].
Qed.

Lemma unrecognised_tier_gets_free_key_but_is_echoed_witness :
  let req := request None "" [("tier", JsString "gold")] in
  (post_generate_key req sample_env initial_world).1
  = Ok (res_json 200
          [ ("apiKey", JsString "free_4fzyo82mvyrk2j8x0q1p9c");
            ("tier", JsString "gold");
            ("message",
              JsString "This is a test key. For production, please upgrade.") ])
  ∧ classify "free_4fzyo82mvyrk2j8x0q1p9c" = free.
Proof.
  intros req.
  destruct (unrecognised_tier_gets_free_key_but_is_echoed
              sample_env initial_world req "gold")
    as ((_ & Hresp & _) & _ & Hfree & _);
    [reflexivity|discriminate|discriminate|].
  split; [exact Hresp|exact Hfree].
Defined.

(** ** [GET /prices/:id] *)

(** The id is lowercased for the query, and with it for the cache key and
    the upstream URL; the answer is 404 exactly when [prices[id]] is
    falsy. *)
Lemma price_handler_answer req env w prices w1 :
  getCryptoPrices (toLowerCase env (params_id req)) env w = (Ok prices, w1) →
  price_handler req env w =
    if truthy (get_property prices (toLowerCase env (params_id req)))
    then (Ok (res_json 200
                (success_body req prices
                   (toISOString env (Date_now env (clock_reads w1))))),
          tick w1)
    else (Ok (not_found_response (params_id req)), w1).
Proof.
  intros Hrun. rewrite price_handler_unfold. simpl. rewrite Hrun.
  by destruct (truthy _).
Qed.

(** Off the names of [Object.prototype], an id without an entry in the
    provider's answer reads as [undefined] and is reported missing. *)
Lemma missing_id_off_prototype_is_404 req env w prices w1 :
  getCryptoPrices (toLowerCase env (params_id req)) env w = (Ok prices, w1) →
  own_property prices (toLowerCase env (params_id req)) = None →
  toLowerCase env (params_id req) ∉ Object_prototype →
  price_handler req env w = (Ok (not_found_response (params_id req)), w1)
  ∧ status (not_found_response (params_id req)) = 404.
Proof.
  intros Hrun Hown Hoff. split; [|reflexivity].
  rewrite (price_handler_answer req env w prices w1 Hrun).
  unfold get_property. rewrite Hown.
  destruct (existsb _ Object_prototype) eqn:Hex; [|reflexivity].
  apply existsb_exists in Hex as (x & Hin & Heq).
  apply String.eqb_eq in Heq. subst x.
  apply list_elem_of_In in Hin. contradiction.
Qed.

(** Claim C4 at [GET /prices/constructor].  The provider answers [{}], so
    its mapping has no entry for the id, yet [prices["constructor"]] finds
    the member every object inherits and the request is answered 200 with
    the success shape; an id off the prototype is answered 404. *)
Theorem inherited_name_served_as_found :
  let req := request (Some "free_demo") "constructor" [] in
  axios_get sample_env 0 (price_url "constructor") = Ok []
  ∧ own_property [] "constructor" = None
  ∧ (get_price req sample_env initial_world).1
    = Ok (res_json 200
            [ ("success", JsBool true);
              ("tier", JsString "free");
              ("data", JsObject []);
              ("timestamp", JsString "2023-11-14T22:13:20.000Z") ])
  ∧ (get_price (request (Some "free_demo") "doesnotexist" [])
       sample_env initial_world).1
    = Ok (not_found_response "doesnotexist")
  ∧ status (not_found_response "doesnotexist") = 404.
Proof. repeat split. Qed.

(** * Further properties of the code *)

(** ** What one call of [getCryptoPrices] does *)

Lemma getCryptoPrices_effect env w Q :
  price_call_effect env Q w
    (getCryptoPrices Q env w).1 (getCryptoPrices Q env w).2.
Proof.
  unfold price_call_effect.
  destruct (getCryptoPrices_cases env w Q) as [(c & Hc & Hf & ->)|[_ ->]].
  { left. exists c. repeat split; assumption. }
  destruct (before_fetch_frame Q w) as (Hcache & _ & Hlog & Hup & _).
  right.
  destruct (fetch_and_store_cases env (before_fetch Q w) Q)
    as [(d & Hd & ->)|(e & He & ->)]; [left|right].
  - exists d, (Date_now env (clock_reads (before_fetch Q w))).
    rewrite Hup in Hd. simpl. rewrite Hcache, Hup, Hlog. auto.
  - exists e. rewrite Hup in He. simpl. rewrite Hcache, Hup, Hlog. auto.
Qed.

(** The payload a call returns is never a stale one: it is the data of an
    entry that passes the freshness test at this very call, in which case
    the provider is not contacted, or it is what the provider has just
    answered to the one call made, in which case it is also what the cache
    now holds for the query. *)
Theorem returned_payload_is_fresh_or_just_fetched env w Q p w' :
  getCryptoPrices Q env w = (Ok p, w') →
  (∃ c, cache w !! cacheKey Q = Some c
      ∧ data c = p
      ∧ Date_now env (clock_reads w) - timestamp c < CACHE_TTL
      ∧ upstream_calls w' = upstream_calls w)
  ∨ (axios_get env (length (upstream_calls w)) (price_url Q) = Ok p
     ∧ upstream_calls w' = (upstream_calls w ++ [price_url Q])%list
     ∧ data <$> cache w' !! cacheKey Q = Some p).
Proof.
  intros Hrun. pose proof (getCryptoPrices_effect env w Q) as H.
  rewrite Hrun in H. simpl in H.
  destruct H as [(c & Hc & Hf & [= ->] & _ & Hup & _)
                |[(d & t & Hd & [= ->] & Hcache & Hup & _)
                 |(e & _ & Hr & _)]].
  - left. eauto.
  - right. split; [exact Hd|]. split; [exact Hup|].
    rewrite Hcache, lookup_insert_eq. reflexivity.
  - discriminate.
Qed.

Lemma returned_payload_is_fresh_or_just_fetched_witness :
  axios_get sample_env 0 (price_url "bitcoin") = Ok bitcoin_quote
  ∧ upstream_calls (getCryptoPrices "bitcoin" sample_env initial_world).2
    = [price_url "bitcoin"].
Proof.
  destruct (returned_payload_is_fresh_or_just_fetched
              sample_env initial_world "bitcoin" bitcoin_quote
              (getCryptoPrices "bitcoin" sample_env initial_world).2 eq_refl)
    as [(c & Hc & _)|(Hd & Hup & _)].
  - vm_compute in Hc. discriminate.
  - split; [exact Hd|exact Hup].
Defined.

(** The freshness test is strict and one-sided.  An entry exactly 60,000
    ms old is not served: the call goes to the provider.  One millisecond
    younger it is served.  And an entry whose timestamp lies ahead of the
    clock (the system clock was set back) is served however far ahead it
    lies. *)
Theorem ttl_boundary env w Q c :
  cache w !! cacheKey Q = Some c →
  (Date_now env (clock_reads w) = timestamp c + 60000 →
   upstream_calls (getCryptoPrices Q env w).2
   = (upstream_calls w ++ [price_url Q])%list)
  ∧ (Date_now env (clock_reads w) = timestamp c + 59999 →
     getCryptoPrices Q env w = (Ok (data c), tick w))
  ∧ ((Date_now env (clock_reads w) ≤ timestamp c)%Z →
     getCryptoPrices Q env w = (Ok (data c), tick w)).
Proof.
  intros Hc. split; [|split]; intros Hnow.
  - rewrite (getCryptoPrices_stale env w Q c Hc)
      by (unfold CACHE_TTL; lia).
    destruct (fetch_and_store_cases env (tick w) Q)
      as [(d & _ & ->)|(e & _ & ->)]; reflexivity.
  - apply getCryptoPrices_hit; [exact Hc|unfold CACHE_TTL; lia].
  - apply getCryptoPrices_hit; [exact Hc|unfold CACHE_TTL; lia].
Qed.

Lemma ttl_boundary_witness :
  let entry t := {| data := bitcoin_quote; timestamp := t |} in
  let at_limit := stored (cacheKey "bitcoin") (entry 1699999940000) initial_world in
  let inside := stored (cacheKey "bitcoin") (entry 1699999940001) initial_world in
  let ahead := stored (cacheKey "bitcoin") (entry 1800000000000) initial_world in
  upstream_calls (getCryptoPrices "bitcoin" sample_env at_limit).2
  = [price_url "bitcoin"]
  ∧ getCryptoPrices "bitcoin" sample_env inside = (Ok bitcoin_quote, tick inside)
  ∧ getCryptoPrices "bitcoin" sample_env ahead = (Ok bitcoin_quote, tick ahead).
Proof.
  intros entry at_limit inside ahead. split; [|split].
  - destruct (ttl_boundary sample_env at_limit "bitcoin" (entry 1699999940000))
      as (Hedge & _); [reflexivity|].
    rewrite Hedge; reflexivity.
  - destruct (ttl_boundary sample_env inside "bitcoin" (entry 1699999940001))
      as (_ & Hin & _); [reflexivity|].
    apply Hin. reflexivity.
  - destruct (ttl_boundary sample_env ahead "bitcoin" (entry 1800000000000))
      as (_ & _ & Hback); [reflexivity|].
    apply Hback. vm_compute. discriminate.
Defined.

(** ** The price routes, outcome by outcome *)

(** Everything a price route can do with a request: turn it away for want
    of a key, turn it away at the limiter, or run [getCryptoPrices] for the
    route's query and shape the answer. *)
Lemma price_call_outcome env w c Q req :
  (c = GetPrices req ∧ Q = "bitcoin,ethereum")
  ∨ (c = GetPrice req ∧ Q = toLowerCase env (params_id req)) →
  ((header_x_api_key req = None ∨ header_x_api_key req = Some "")
   ∧ app c env w = (Ok missing_key_response, w))
  ∨ ∃ k, header_x_api_key req = Some k ∧ k ≠ ""
     ∧ let w0 := consulted free_limiter_options w in
       let g := getCryptoPrices Q env w0 in
       (limiter_rejects env (length (limiter_calls w)) free_limiter_options
          (authenticated req k) = true
        ∧ app c env w
          = (Ok {| status := 429; json := rl_message free_limiter_options |}, w0))
       ∨ (limiter_rejects env (length (limiter_calls w)) free_limiter_options
            (authenticated req k) = false
          ∧ ((∃ e label, g.1 = Throw e
                ∧ app c env w
                  = (Ok (res_json 500 [ ("error", JsString label);
                                        ("message", JsString (message e)) ]),
                     g.2))
             ∨ (∃ prices, g.1 = Ok prices
                  ∧ ((app c env w
                      = (Ok (res_json 200
                               (success_body (authenticated req k) prices
                                  (toISOString env
                                     (Date_now env (clock_reads g.2))))),
                         tick g.2)
                      ∧ (c = GetPrice req →
                         truthy (get_property prices Q) = true))
                     ∨ (c = GetPrice req
                        ∧ truthy (get_property prices Q) = false
                        ∧ app c env w
                          = (Ok (not_found_response (params_id req)), g.2)))))).
Proof.
  intros Hc.
  assert (app c env w
          = route [validateApiKey; createRateLimit free]
              (match c with GetPrices _ => prices_handler | _ => price_handler end)
              req env w) as Happ
    by (destruct Hc as [[-> _]|[-> _]]; reflexivity).
  rewrite Happ, guarded_route_unfold.
  destruct (header_x_api_key req) as [k|] eqn:Hkey; [|left; auto].
  destruct (String.eqb_spec k "") as [->|Hk]; [left; auto|].
  right. exists k. split; [reflexivity|]. split; [exact Hk|]. simpl.
  destruct (limiter_rejects _ _ _ _); [left; auto|].
  right. split; [reflexivity|].
  destruct Hc as [[-> ->]|[-> ->]].
  - rewrite prices_handler_unfold.
    destruct (getCryptoPrices _ env _) as [[prices|e] g]; simpl.
    + right. exists prices. split; [reflexivity|]. left. split; [reflexivity|].
      discriminate.
    + left. eauto.
  - rewrite price_handler_unfold. simpl.
    destruct (getCryptoPrices _ env _) as [[prices|e] g]; simpl.
    + right. exists prices. split; [reflexivity|].
      destruct (truthy _); simpl; [left|right]; auto.
    + left. eauto.
Qed.

Lemma open_call_outcome env w c :
  query_of env c = None →
  upstream_calls (app c env w).2 = upstream_calls w
  ∧ console (app c env w).2 = console w
  ∧ cache (app c env w).2 = cache w
  ∧ limiter_calls (app c env w).2 = limiter_calls w
  ∧ ∃ r, (app c env w).1 = Ok r ∧ status r = 200.
Proof.
  destruct c as [req|req up|req|req|req]; try discriminate; intros _;
    repeat split; eexists; split; reflexivity.
Qed.

(** The world after a price route, seen from the state before. *)
Lemma price_call_world env w c Q req :
  (c = GetPrices req ∧ Q = "bitcoin,ethereum")
  ∨ (c = GetPrice req ∧ Q = toLowerCase env (params_id req)) →
  let w0 := consulted free_limiter_options w in
  let w' := (app c env w).2 in
  (cache w' = cache w ∧ upstream_calls w' = upstream_calls w
   ∧ console w' = console w ∧ apiKeys w' = apiKeys w)
  ∨ (∃ r, price_call_effect env Q w0 r w' ∧ apiKeys w' = apiKeys w
        ∧ (∀ e, r = Throw e → ∃ x, (app c env w).1 = Ok x ∧ status x = 500)).
Proof.
  intros Hc w0 w'. subst w0 w'.
  destruct (price_call_outcome env w c Q req Hc)
    as [[_ ->]|(k & _ & _ & [[_ ->]|[_ H]])]; [left; auto..|].
  right.
  pose proof (getCryptoPrices_effect env (consulted free_limiter_options w) Q)
    as Heff.
  destruct (getCryptoPrices_frame env (consulted free_limiter_options w) Q)
    as (Hkeys & _).
  destruct (getCryptoPrices Q env (consulted free_limiter_options w))
    as [r g] eqn:Hg. simpl in *.
  exists r.
  destruct H as [(e & label & -> & ->)
                |(prices & -> & [[-> _]|(_ & _ & ->)])]; simpl.
  - split; [exact Heff|]. split; [exact Hkeys|]. intros e' _. eauto.
  - split; [|split; [exact Hkeys|discriminate]].
    unfold price_call_effect in *. simpl. exact Heff.
  - split; [exact Heff|]. split; [exact Hkeys|discriminate].
Qed.

Lemma call_kind env c :
  query_of env c = None
  ∨ ∃ req Q, query_of env c = Some Q
      ∧ ((c = GetPrices req ∧ Q = "bitcoin,ethereum")
         ∨ (c = GetPrice req ∧ Q = toLowerCase env (params_id req))).
Proof. destruct c as [req|req up|req|req|req]; simpl; eauto 10. Qed.

Lemma is_price_call_query env c :
  is_price_call c = true ↔ ∃ Q, query_of env c = Some Q.
Proof.
  destruct c; simpl; split; try discriminate; eauto;
    intros [Q [=]].
Qed.

Lemma run_cons c calls env w :
  run (c :: calls) env w
  = ((app c env w).1 :: (run calls env (app c env w).2).1,
     (run calls env (app c env w).2).2).
Proof.
  simpl. destruct (app c env w) as [r w1]. simpl.
  destruct (run calls env w1) as [rs w2]. reflexivity.
Qed.

(** ** Upstream calls and log lines *)

(** No request costs more than one call to the provider, and only the two
    price routes can cost one: the URL requested is the one for the
    route's query.  Over any sequence of requests the list of upstream
    calls only grows at its end, by at most one URL per price request. *)
Theorem at_most_one_upstream_call_per_request env :
  (∀ c w,
     upstream_calls (app c env w).2 = upstream_calls w
     ∨ ∃ Q, query_of env c = Some Q
          ∧ upstream_calls (app c env w).2
            = (upstream_calls w ++ [price_url Q])%list)
  ∧ (∀ calls w, ∃ urls,
       upstream_calls (run calls env w).2 = (upstream_calls w ++ urls)%list
       ∧ (length urls ≤ length (List.filter is_price_call calls))%nat).
Proof.
  assert (∀ c w,
     upstream_calls (app c env w).2 = upstream_calls w
     ∨ ∃ Q, query_of env c = Some Q
          ∧ upstream_calls (app c env w).2
            = (upstream_calls w ++ [price_url Q])%list) as Hstep.
  { intros c w.
    destruct (call_kind env c) as [Hopen|(req & Q & HQ & Hc)].
    - left. by destruct (open_call_outcome env w c Hopen) as (-> & _).
    - destruct (price_call_world env w c Q req Hc)
        as [(_ & -> & _)|(r & Heff & _)]; [by left|].
      destruct Heff as [(x & _ & _ & _ & _ & -> & _)
                       |[(d & t & _ & _ & _ & -> & _)
                        |(e & _ & _ & _ & -> & _)]]; eauto. }
  split; [exact Hstep|].
  induction calls as [|c calls IH]; intros w.
  { exists []. simpl. split; [by rewrite app_nil_r|lia]. }
  rewrite run_cons. simpl.
  destruct (IH (app c env w).2) as (urls & -> & Hlen).
  destruct (Hstep c w) as [-> | (Q & HQ & ->)].
  - exists urls. split; [reflexivity|].
    destruct (is_price_call c); simpl; lia.
  - exists (price_url Q :: urls). split; [by rewrite <- app_assoc|].
    assert (is_price_call c = true) as ->
      by (apply (is_price_call_query env); eauto).
    simpl. lia.
Qed.

(** The error log gets a line only when a call to the provider has just
    failed: the line carries the failure's message, it is the only line
    the request writes, and the request is answered 500. *)
Theorem log_line_only_on_upstream_failure env c w :
  console (app c env w).2 = console w
  ∨ ∃ Q e,
      query_of env c = Some Q
      ∧ axios_get env (length (upstream_calls w)) (price_url Q) = Throw e
      ∧ console (app c env w).2
        = (console w ++ ["Error fetching prices: " +:+ message e])%list
      ∧ ∃ r, (app c env w).1 = Ok r ∧ status r = 500.
Proof.
  destruct (call_kind env c) as [Hopen|(req & Q & HQ & Hc)].
  - left. by destruct (open_call_outcome env w c Hopen) as (_ & -> & _).
  - destruct (price_call_world env w c Q req Hc)
      as [(_ & _ & -> & _)|(r & Heff & _ & H500)]; [by left|].
    destruct Heff as [(x & _ & _ & _ & _ & _ & ->)
                     |[(d & t & _ & _ & _ & _ & ->)
                      |(e & He & -> & _ & _ & ->)]]; [by left..|].
    right. exists Q, e. eauto.
Qed.

(** ** Answers *)




(** ** The two stores over a run of requests *)

Lemma app_cache_step env c w :
  cache_step env w (app c env w).2
  ∧ (is_price_call c = false → cache (app c env w).2 = cache w).
Proof.
  destruct c as [req|req up|req|req|req]; simpl;
    (split; [|try discriminate; reflexivity]); try (by left).
  - apply guarded_route_cache_step. intros. apply prices_handler_cache_step.
  - apply guarded_route_cache_step. intros. apply price_handler_cache_step.
Qed.

Lemma app_apiKeys env c w :
  apiKeys (app c env w).2 = apiKeys w
  ∨ ∃ req,
      c = PostGenerateKey req
      ∧ apiKeys (app c env w).2
        = <[key_prefix (body_tier (body req)) +:+ token env w :=
              {| key_tier := body_tier (body req);
                 createdAt := Date_now env (clock_reads w) |}]> (apiKeys w).
Proof.
  destruct (call_kind env c) as [Hopen|(req & Q & HQ & Hc)].
  - destruct c as [req|req up|req|req|req]; try discriminate;
      [by left|by left|right; eauto].
  - left. destruct (price_call_world env w c Q req Hc)
      as [(_ & _ & _ & ->)|(r & _ & -> & _)]; reflexivity.
Qed.

Lemma insert_size_le `{Countable K} {A} (m : gmap K A) k x :
  (size (<[k := x]> m) ≤ S (size m))%nat.
Proof. rewrite map_size_insert. destruct (m !! k); simpl; lia. Qed.

(** Nothing is ever evicted.  Over any sequence of requests every key of
    the cache and of the key store stays present, the cache gains at most
    one entry per price request and the key store at most one record per
    issued key. *)
Theorem stores_only_grow env calls w :
  (∀ k, is_Some (cache w !! k) → is_Some (cache (run calls env w).2 !! k))
  ∧ (∀ k, is_Some (apiKeys w !! k) →
          is_Some (apiKeys (run calls env w).2 !! k))
  ∧ (size (cache (run calls env w).2)
     ≤ size (cache w) + length (List.filter is_price_call calls))%nat
  ∧ (size (apiKeys (run calls env w).2)
     ≤ size (apiKeys w)
       + length (List.filter (λ c, negb (is_price_call c)) calls))%nat.
Proof.
  revert w. induction calls as [|c calls IH]; intros w.
  { simpl. repeat split; auto; lia. }
  rewrite run_cons. simpl.
  destruct (IH (app c env w).2) as (IHc & IHk & IHsc & IHsk).
  destruct (app_cache_step env c w) as [Hstep Hopen].
  pose proof (app_apiKeys env c w) as Hkeys.
  repeat split.
  - intros k Hk. apply IHc.
    destruct Hstep as [-> | (Q & d & t & _ & ->)]; [exact Hk|].
    apply lookup_insert_is_Some'. by right.
  - intros k Hk. apply IHk.
    destruct Hkeys as [-> | (req & _ & ->)]; [exact Hk|].
    apply lookup_insert_is_Some'. by right.
  - destruct (is_price_call c) eqn:Hc; simpl.
    + destruct Hstep as [Hsame | (Q & d & t & _ & Hput)].
      * rewrite Hsame in IHsc. lia.
      * rewrite Hput in IHsc.
        pose proof (insert_size_le (cache w) (cacheKey Q)
                      {| data := d; timestamp := t |}). lia.
    + rewrite (Hopen eq_refl) in IHsc. exact IHsc.
  - destruct Hkeys as [Hsame | (req & -> & Hput)].
    + rewrite Hsame in IHsk. destruct (is_price_call c); simpl; lia.
    + rewrite Hput in IHsk.
      cbn [List.filter is_price_call negb length].
      pose proof (insert_size_le (apiKeys w)
                    (key_prefix (body_tier (body req)) +:+ token env w)
                    {| key_tier := body_tier (body req);
                       createdAt := Date_now env (clock_reads w) |}). lia.
Qed.

Lemma stores_only_grow_witness :
  let calls :=
    [ GetPrice (request (Some "free_demo") "Bitcoin" []);
      PostGenerateKey (request None "" []);
      GetPrice (request (Some "free_demo") "doesnotexist" []);
      GetPrices (request None "" []) ] in
  let w1 := (run (take 2 calls) sample_env initial_world).2 in
  is_Some (cache (run (drop 2 calls) sample_env w1).2 !! cacheKey "bitcoin")
  ∧ is_Some (apiKeys (run (drop 2 calls) sample_env w1).2
               !! "free_4fzyo82mvyrk2j8x0q1p9c").
Proof.
  intros calls w1.
  destruct (stores_only_grow sample_env (drop 2 calls) w1)
    as (Hcache & Hkeys & _).
  split.
  - apply Hcache. vm_compute. eauto.
  - apply Hkeys. vm_compute. eauto.
Defined.

Lemma app_consistent env c w :
  cache_consistent env w → cache_consistent env (app c env w).2.
Proof.
  intros Hinv.
  assert (∀ w0 w1, cache w1 = cache w0 → upstream_calls w1 = upstream_calls w0 →
                   cache_consistent env w0 → cache_consistent env w1) as Hsame.
  { intros w0 w1 Hcache Hup. apply cache_consistent_more_calls; [exact Hcache|].
    exists []. by rewrite app_nil_r. }
  destruct (call_kind env c) as [Hopen|(req & Q & HQ & Hc)].
  - destruct (open_call_outcome env w c Hopen) as (Hup & _ & Hcache & _).
    by apply (Hsame w).
  - destruct (price_call_outcome env w c Q req Hc)
      as [[_ ->]|(k & _ & _ & [[_ ->]|[_ H]])];
      [exact Hinv|by apply (Hsame w)|].
    pose proof (getCryptoPrices_consistent env
                  (consulted free_limiter_options w) Q) as Hg.
    assert (cache_consistent env (consulted free_limiter_options w)) as Hinv0
      by (by apply (Hsame w)).
    specialize (Hg Hinv0).
    destruct H as [(e & label & _ & ->)
                  |(prices & _ & [[-> _]|(_ & _ & ->)])]; simpl;
      [exact Hg| |exact Hg].
    by apply (Hsame (getCryptoPrices Q env (consulted free_limiter_options w)).2).
Qed.

(** In every state the server can reach from its start, by requests to
    any of its routes in any order, each cached payload is what the
    provider answered, on a recorded call, to the query its key names. *)
Theorem reachable_cache_holds_provider_answers env calls :
  cache_consistent env (run calls env initial_world).2.
Proof.
  assert (∀ w, cache_consistent env w →
               cache_consistent env (run calls env w).2) as H.
  { induction calls as [|c calls IH]; intros w Hinv; [exact Hinv|].
    rewrite run_cons. simpl. apply IH. by apply app_consistent. }
  apply H. intros k c Hk. simpl in Hk. by rewrite lookup_empty in Hk.
Qed.

(** ** Keys: issue, store, classify *)

Lemma prefix_pro_classify k : String.prefix "pro_" k = true → classify k = pro.
Proof.
  intros H. unfold classify, startsWith. rewrite H.
  destruct k as [|a k]; [discriminate|].
  cbn [String.prefix] in *.
  match type of H with
  | context [Ascii.ascii_dec ?c a] =>
      destruct (Ascii.ascii_dec c a) as [<-|]; [reflexivity|discriminate]
  end.
Qed.

Lemma prefix_ent_classify k :
  String.prefix "ent_" k = true → classify k = enterprise.
Proof. intros H. unfold classify, startsWith. by rewrite H. Qed.

Lemma prefix_free_classify k : String.prefix "free_" k = true → classify k = free.
Proof.
  intros H. unfold classify, startsWith.
  destruct k as [|a k]; [discriminate|].
  cbn [String.prefix] in *.
  match type of H with
  | context [Ascii.ascii_dec ?c a] =>
      destruct (Ascii.ascii_dec c a) as [<-|]; [reflexivity|discriminate]
  end.
Qed.

Lemma key_prefix_cases v :
  (v = JsString "pro" ∧ key_prefix v = "pro_")
  ∨ (v = JsString "enterprise" ∧ key_prefix v = "ent_")
  ∨ (v ≠ JsString "pro" ∧ v ≠ JsString "enterprise" ∧ key_prefix v = "free_").
Proof.
  unfold key_prefix, is_string.
  destruct v as [| |b|q|s|o|n]; try (right; right; repeat split; discriminate).
  destruct (String.eqb_spec s "pro") as [->|Hp]; [by left|].
  destruct (String.eqb_spec s "enterprise") as [->|He]; [right; by left|].
  right; right. repeat split; congruence.
Qed.

Lemma body_tier_defined b : body_tier b ≠ JsUndefined.
Proof. unfold body_tier. by destruct (get_property b "tier"). Qed.

Lemma app_keys_consistent env c w :
  keys_consistent w → keys_consistent (app c env w).2.
Proof.
  intros Hinv. destruct (app_apiKeys env c w) as [Hsame|(req & _ & Hput)];
    intros k r Hk.
  - rewrite Hsame in Hk. by apply Hinv.
  - rewrite Hput in Hk.
    apply lookup_insert_Some in Hk as [[<- <-]|[_ Hk]]; [|by apply Hinv].
    simpl. split; [apply prefix_app|apply body_tier_defined].
Qed.

(** Whatever requests the server has handled since its start, every
    record of the key store sits under a key that the key check will
    classify in line with the stored tier: [pro] for the tier ["pro"],
    [enterprise] for ["enterprise"], and [free] for every other stored
    tier value, which is then never [undefined]. *)
Theorem stored_tier_agrees_with_key_prefix env calls k r :
  apiKeys (run calls env initial_world).2 !! k = Some r →
  (key_tier r = JsString "pro" → classify k = pro)
  ∧ (key_tier r = JsString "enterprise" → classify k = enterprise)
  ∧ (key_tier r ≠ JsString "pro" → key_tier r ≠ JsString "enterprise" →
     classify k = free ∧ key_tier r ≠ JsUndefined).
Proof.
  assert (∀ w, keys_consistent w → keys_consistent (run calls env w).2) as H.
  { induction calls as [|c calls IH]; intros w Hinv; [exact Hinv|].
    rewrite run_cons. simpl. apply IH. by apply app_keys_consistent. }
  assert (keys_consistent initial_world) as H0.
  { intros k' r' Hk'. simpl in Hk'. by rewrite lookup_empty in Hk'. }
  intros Hk. destruct (H initial_world H0 k r Hk) as [Hpre Hdef].
  destruct (key_prefix_cases (key_tier r))
    as [[Ht Hp]|[[Ht Hp]|(Hnp & Hne & Hp)]]; rewrite Hp in Hpre.
  - repeat split; intros; try congruence. by apply prefix_pro_classify.
  - repeat split; intros; try congruence. by apply prefix_ent_classify.
  - repeat split; intros; try congruence. by apply prefix_free_classify.
Qed.

Lemma stored_tier_agrees_with_key_prefix_witness :
  let calls :=
    [ PostGenerateKey (request None "" [("tier", JsString "pro")]);
      GetPrices (request (Some "pro_4fzyo82mvyrk2j8x0q1p9c") "" []) ] in
  classify "pro_4fzyo82mvyrk2j8x0q1p9c" = pro.
Proof.
  intros calls.
  destruct (stored_tier_agrees_with_key_prefix sample_env calls
              "pro_4fzyo82mvyrk2j8x0q1p9c"
              {| key_tier := JsString "pro"; createdAt := 1700000000000 |})
    as (Hpro & _); [reflexivity|].
  apply Hpro. reflexivity.
Defined.

(** A key the server issues for one of its three tiers, or for a body
    without a tier, comes back through the key check with that very tier:
    it is never empty, so it is never turned away, and its prefix
    classifies as the tier it was issued for. *)
Theorem issued_key_classifies_as_requested env w req t :
  own_property (body req) "tier" = Some (JsString (tier_name t))
  ∨ (t = free ∧ own_property (body req) "tier" = None) →
  let key := key_prefix (JsString (tier_name t)) +:+ token env w in
  (post_generate_key req env w).1
  = Ok (res_json 200
          [ ("apiKey", JsString key);
            ("tier", JsString (tier_name t));
            ("message",
              JsString "This is a test key. For production, please upgrade.") ])
  ∧ classify key = t
  ∧ ∀ req' next env' w',
      header_x_api_key req' = Some key →
      validateApiKey req' next env' w' = next (authenticated req' key) env' w'
      ∧ req_tier (authenticated req' key) = Some t.
Proof.
  intros Hbody key.
  assert (body_tier (body req) = JsString (tier_name t)) as Htier.
  { unfold body_tier, get_property.
    destruct Hbody as [-> | [-> ->]]; reflexivity. }
  assert (classify key = t) as Hclass.
  { subst key.
    destruct t;
      [apply prefix_free_classify|apply prefix_pro_classify
      |apply prefix_ent_classify]; apply prefix_app. }
  split; [|split; [exact Hclass|]].
  - rewrite generate_key_unfold. simpl. rewrite Htier. reflexivity.
  - intros req' next env' w' Hkey. split.
    + apply validateApiKey_accepts; [exact Hkey|].
      subst key. destruct t; discriminate.
    + simpl. by rewrite Hclass.
Qed.

Lemma issued_key_classifies_as_requested_witness :
  let req := request None "" [("tier", JsString "enterprise")] in
  let next : Handler := λ r, ret (res_json 200 [("tier", tier_value r)]) in
  validateApiKey (request (Some "ent_4fzyo82mvyrk2j8x0q1p9c") "" []) next
    sample_env initial_world
  = (Ok (res_json 200 [("tier", JsString "enterprise")]), initial_world).
Proof.
  intros req next.
  destruct (issued_key_classifies_as_requested sample_env initial_world req
              enterprise) as (_ & _ & Hback); [by left|].
  destruct (Hback (request (Some "ent_4fzyo82mvyrk2j8x0q1p9c") "" []) next
              sample_env initial_world eq_refl) as [-> _].
  reflexivity.
Defined.



Lemma getCryptoPrices_with_apiKeys env w Q keys :
  getCryptoPrices Q env (with_apiKeys keys w)
  = ((getCryptoPrices Q env w).1, with_apiKeys keys (getCryptoPrices Q env w).2).
Proof.
  unfold getCryptoPrices, fetch_and_store, try_catch, bind, ret, throw,
    cache_get, cache_set, console_error, axios_data, now. simpl.
  destruct (cache w !! cacheKey Q) as [c|]; simpl.
  - destruct (bool_decide _); [reflexivity|]. simpl.
    destruct (axios_get env _ _); reflexivity.
  - destruct (axios_get env _ _); reflexivity.
Qed.

(** The price routes never look at the key store and never change it: a
    request is answered the same, with the same effects, whatever keys
    have or have not been issued.  A key that was never issued is as good
    as one that was. *)
Theorem price_routes_ignore_key_store env w c keys :
  is_price_call c = true →
  app c env (with_apiKeys keys w)
  = ((app c env w).1, with_apiKeys keys (app c env w).2)
  ∧ apiKeys (app c env w).2 = apiKeys w.
Proof.
  intros Hc. split.
  - destruct c as [req|req up|req|req|req]; try discriminate; simpl;
      unfold get_prices, get_price; rewrite !guarded_route_unfold;
      (destruct (header_x_api_key req) as [k|]; [|reflexivity]);
      (destruct (String.eqb k ""); [reflexivity|]); simpl;
      (destruct (limiter_rejects _ _ _ _); [reflexivity|]).
    + rewrite !prices_handler_unfold.
      change (consulted free_limiter_options (with_apiKeys keys w))
        with (with_apiKeys keys (consulted free_limiter_options w)).
      rewrite getCryptoPrices_with_apiKeys.
      destruct (getCryptoPrices _ env _) as [[p|e] g]; reflexivity.
    + rewrite !price_handler_unfold. simpl.
      change (consulted free_limiter_options (with_apiKeys keys w))
        with (with_apiKeys keys (consulted free_limiter_options w)).
      rewrite getCryptoPrices_with_apiKeys.
      destruct (getCryptoPrices _ env _) as [[p|e] g]; [|reflexivity].
      simpl. destruct (negb _); reflexivity.
  - destruct (app_apiKeys env c w) as [H|(req & -> & _)];
      [exact H|discriminate].
Qed.

Lemma price_routes_ignore_key_store_witness :
  let c := GetPrice (request (Some "ent_never_issued") "bitcoin" []) in
  let keys :=
    apiKeys (post_generate_key (request None "" [("tier", JsString "pro")])
               sample_env initial_world).2 in
  (app c sample_env (with_apiKeys keys initial_world)).1
  = (app c sample_env initial_world).1.
Proof.
  intros c keys.
  destruct (price_routes_ignore_key_store sample_env initial_world c keys)
    as [Hsame _]; [reflexivity|].
  by rewrite Hsame.
Defined.

Lemma string_length_app (s1 s2 : string) :
  String.length (s1 +:+ s2) = (String.length s1 + String.length s2)%nat.
Proof.
  induction s1 as [|a s1 IH]; [reflexivity|].
  change (String a s1 +:+ s2) with (String a (s1 +:+ s2)).
  cbn [String.length]. by rewrite IH.
Qed.

Lemma substring_length_le (s : string) :
  ∀ n m, (String.length (String.substring n m s) ≤ m)%nat.
Proof.
  induction s as [|a s IH]; intros [|n] [|m]; cbn [String.substring String.length];
    try lia.
  - specialize (IH 0%nat m). lia.
  - apply IH.
  - apply IH.
Qed.

Lemma substring_past_end (s : string) :
  ∀ n m, (String.length s ≤ n)%nat → String.substring n m s = "".
Proof.
  induction s as [|a s IH]; intros [|n] [|m] Hlen;
    cbn [String.substring String.length] in *; try reflexivity; try lia.
  - apply IH. lia.
  - apply IH. lia.
Qed.

Lemma string_app_empty_r (s : string) : s +:+ "" = s.
Proof.
  induction s as [|a s IH]; [reflexivity|].
  change (String a s +:+ "") with (String a (s +:+ "")). by rewrite IH.
Qed.

(** The key returned by [POST /generate-key] is its tier prefix followed
    by at most 26 characters, 13 from each random draw, so it is 4 to 31
    characters long.  When both draws print without digits after the
    point (as [Math.random()] returning 0 does, printing ["0"]), nothing
    follows the prefix: the key is the bare prefix, the same for every
    such request. *)
Theorem issued_key_length env w req :
  let prefix := key_prefix (body_tier (body req)) in
  let key := prefix +:+ token env w in
  (post_generate_key req env w).1
  = Ok (res_json 200
          [ ("apiKey", JsString key);
            ("tier", body_tier (body req));
            ("message",
              JsString "This is a test key. For production, please upgrade.") ])
  ∧ (String.length prefix ≤ String.length key ≤ String.length prefix + 26)%nat
  ∧ (4 ≤ String.length key ≤ 31)%nat
  ∧ ((String.length (Math_random_36 env (random_draws w)) ≤ 2)%nat →
     (String.length (Math_random_36 env (S (random_draws w))) ≤ 2)%nat →
     key = prefix).
Proof.
  intros prefix key.
  assert (String.length (token env w) ≤ 26)%nat as Htok.
  { unfold token, substring. rewrite string_length_app.
    pose proof (substring_length_le
                  (Math_random_36 env (random_draws w)) 2 (15 - 2)).
    pose proof (substring_length_le
                  (Math_random_36 env (S (random_draws w))) 2 (15 - 2)).
    simpl in *. lia. }
  assert (4 ≤ String.length prefix ≤ 5)%nat as Hpre.
  { subst prefix.
    destruct (key_prefix_cases (body_tier (body req)))
      as [[_ ->]|[[_ ->]|(_ & _ & ->)]]; simpl; lia. }
  split; [reflexivity|].
  subst key. rewrite string_length_app.
  split; [lia|]. split; [lia|].
  intros H1 H2. unfold token, substring.
  rewrite !substring_past_end by assumption.
  apply string_app_empty_r.
Qed.

Lemma issued_key_length_witness :
  let zero :=
    {| Date_now := Date_now sample_env;
       toISOString := toISOString sample_env;
       toLowerCase := toLowerCase sample_env;
       Math_random_36 := λ _, "0";
       axios_get := axios_get sample_env;
       limiter_rejects := limiter_rejects sample_env |} in
  let req := request None "" [("tier", JsString "pro")] in
  (post_generate_key req zero initial_world).1
  = Ok (res_json 200
          [ ("apiKey", JsString "pro_");
            ("tier", JsString "pro");
            ("message",
              JsString "This is a test key. For production, please upgrade.") ]).
Proof.
  intros zero req.
  destruct (issued_key_length zero initial_world req) as (Hresp & _ & _ & Hbare).
  rewrite Hresp, Hbare; [reflexivity|simpl; lia..].
Defined.

(** ** [GET /prices/:id]: caching and case *)

Lemma getCryptoPrices_ok_entry env w Q p w' :
  getCryptoPrices Q env w = (Ok p, w') →
  ∃ c, cache w' !! cacheKey Q = Some c ∧ data c = p.
Proof.
  intros Hrun. pose proof (getCryptoPrices_effect env w Q) as H.
  rewrite Hrun in H. simpl in H.
  destruct H as [(c & Hc & _ & [= ->] & -> & _)
                |[(d & t & _ & [= ->] & -> & _)|(e & _ & Hr & _)]].
  - eauto.
  - eexists. split; [apply lookup_insert_eq|reflexivity].
  - discriminate.
Qed.

(** A "not found" is cached like any other answer.  Once a request for an
    id has been answered 404, the cache holds the provider's answer for
    the lowercased id, and as long as that entry is fresh every further
    request for the id that passes the limiter is answered 404 without
    asking the provider again. *)
Theorem not_found_answer_is_cached env w req k w1 :
  header_x_api_key req = Some k → k ≠ "" →
  get_price req env w = (Ok (not_found_response (params_id req)), w1) →
  ∃ c, cache w1 !! cacheKey (toLowerCase env (params_id req)) = Some c
     ∧ truthy (get_property (data c) (toLowerCase env (params_id req))) = false
     ∧ ∀ w2,
         cache w2 !! cacheKey (toLowerCase env (params_id req)) = Some c →
         limiter_rejects env (length (limiter_calls w2)) free_limiter_options
           (authenticated req k) = false →
         Date_now env (clock_reads w2) - timestamp c < CACHE_TTL →
         (get_price req env w2).1 = Ok (not_found_response (params_id req))
         ∧ upstream_calls (get_price req env w2).2 = upstream_calls w2.
Proof.
  intros Hkey Hk Hfirst.
  set (Q := toLowerCase env (params_id req)).
  assert (String.eqb k "" = false) as Hnonempty by (by apply String.eqb_neq).
  destruct (price_call_outcome env w (GetPrice req) Q req) as [[_ H]|H];
    [right; auto| |].
  { simpl in H. rewrite Hfirst in H. discriminate. }
  destruct H as (k' & _ & _ & [[_ H]|[_ [(e & label & _ & H)
                                        |(prices & Hg & [[H _]|(_ & Hfalsy & H)])]]]);
    simpl in H; rewrite Hfirst in H; try discriminate.
  injection H as ->.
  destruct (getCryptoPrices Q env (consulted free_limiter_options w))
    as [r g] eqn:Hrun. simpl in Hg. subst r.
  destruct (getCryptoPrices_ok_entry env _ Q prices g Hrun) as (c & Hc & Hdata).
  exists c. simpl. split; [exact Hc|]. rewrite Hdata. split; [exact Hfalsy|].
  intros w2 Hc2 Hpass Hfresh.
  unfold get_price.
  rewrite guarded_route_unfold, Hkey, Hnonempty, Hpass.
  rewrite price_handler_unfold. simpl. fold Q.
  rewrite (getCryptoPrices_hit env (consulted free_limiter_options w2) Q c)
    by assumption.
  rewrite Hdata, Hfalsy. simpl. split; reflexivity.
Qed.

Lemma not_found_answer_is_cached_witness :
  let req := request (Some "free_demo") "DoesNotExist" [] in
  let w1 := (get_price req sample_env initial_world).2 in
  (get_price req sample_env w1).1 = Ok (not_found_response "DoesNotExist")
  ∧ upstream_calls (get_price req sample_env w1).2 = [price_url "doesnotexist"].
Proof.
  intros req w1.
  destruct (not_found_answer_is_cached sample_env initial_world req
              "free_demo" w1) as (c & Hc & _ & Hnext);
    [reflexivity|discriminate|reflexivity|].
  vm_compute in Hc. injection Hc as <-.
  destruct (Hnext w1) as [Hresp Hup];
    [reflexivity|reflexivity|vm_compute; reflexivity|].
  split; [exact Hresp|]. rewrite Hup. reflexivity.
Defined.

(** Ids that differ only in how they are cased are one query.  Two
    requests whose ids have the same lowercase form, handled from the same
    state by callers of the same tier, leave the same state behind (the
    same cache entry, the same upstream call if any) and get the same
    status; unless that status is 404 they get the very same response.  A
    404 differs only in quoting each id as it was typed. *)
Theorem id_case_is_ignored env w req1 req2 :
  toLowerCase env (params_id req1) = toLowerCase env (params_id req2) →
  req_tier req1 = req_tier req2 →
  (price_handler req1 env w).2 = (price_handler req2 env w).2
  ∧ ∃ r1 r2,
      (price_handler req1 env w).1 = Ok r1
      ∧ (price_handler req2 env w).1 = Ok r2
      ∧ status r1 = status r2
      ∧ (status r1 ≠ 404 → r1 = r2)
      ∧ (status r1 = 404 →
         r1 = not_found_response (params_id req1)
         ∧ r2 = not_found_response (params_id req2)).
Proof.
  intros Hlow Htier. rewrite !price_handler_unfold. simpl. rewrite <- Hlow.
  destruct (getCryptoPrices _ env w) as [[prices|e] g].
  - destruct (truthy _); simpl.
    + split; [reflexivity|]. do 2 eexists.
      split; [reflexivity|]. split; [reflexivity|].
      split; [reflexivity|]. split; [intros _|discriminate].
      unfold success_body, tier_value. by rewrite Htier.
    + split; [reflexivity|]. do 2 eexists.
      split; [reflexivity|]. split; [reflexivity|].
      split; [reflexivity|]. split; [intros H; by destruct H|done].
  - split; [reflexivity|]. do 2 eexists.
    split; [reflexivity|]. split; [reflexivity|].
    split; [reflexivity|]. split; [done|discriminate].
Qed.

Lemma id_case_is_ignored_witness :
  let req id :=
    authenticated (request (Some "free_demo") id []) "free_demo" in
  let w1 := (price_handler (req "Bitcoin") sample_env initial_world).2 in
  (price_handler (req "BITCOIN") sample_env w1).2
  = (price_handler (req "bitcoin") sample_env w1).2
  ∧ upstream_calls (price_handler (req "BITCOIN") sample_env w1).2
    = [price_url "bitcoin"].
Proof.
  intros req w1.
  destruct (id_case_is_ignored sample_env w1 (req "BITCOIN") (req "bitcoin"))
    as [Hsame _]; [reflexivity|reflexivity|].
  split; [exact Hsame|reflexivity].
Defined.

(** Whether an id counts as found is decided by the truthiness of its
    entry, not by its presence.  An id whose entry in the provider's
    answer is an object, even an empty one, is answered 200; an id whose
    entry is [null], [false], [0] or the empty string is answered 404
    although the entry is there. *)
Theorem entry_value_decides_found env w req prices w1 v :
  getCryptoPrices (toLowerCase env (params_id req)) env w = (Ok prices, w1) →
  own_property prices (toLowerCase env (params_id req)) = Some v →
  ((∃ o, v = JsObject o) →
   price_handler req env w
   = (Ok (res_json 200
            (success_body req prices
               (toISOString env (Date_now env (clock_reads w1))))),
      tick w1))
  ∧ (v ∈ [JsNull; JsBool false; JsNumber 0; JsString ""] →
     price_handler req env w = (Ok (not_found_response (params_id req)), w1)).
Proof.
  intros Hrun Hown.
  rewrite (price_handler_answer req env w prices w1 Hrun).
  rewrite (get_property_own _ _ _ Hown).
  split.
  - intros [o ->]. reflexivity.
  - intros Hv. repeat (apply elem_of_cons in Hv as [->|Hv]; [reflexivity|]).
    by apply elem_of_nil in Hv.
Qed.

Lemma entry_value_decides_found_witness :
  let delisted :=
    {| Date_now := Date_now sample_env;
       toISOString := toISOString sample_env;
       toLowerCase := toLowerCase sample_env;
       Math_random_36 := Math_random_36 sample_env;
       axios_get := λ _ _, Ok [("terra", JsObject []); ("luna", JsNull)];
       limiter_rejects := limiter_rejects sample_env |} in
  let req id := authenticated (request (Some "free_demo") id []) "free_demo" in
  (price_handler (req "luna") delisted initial_world).1
  = Ok (not_found_response "luna")
  ∧ ∃ r, (price_handler (req "terra") delisted initial_world).1 = Ok r
       ∧ status r = 200.
Proof.
  intros delisted req.
  pose (answer := [("terra", JsObject []); ("luna", JsNull)]).
  split.
  - destruct (entry_value_decides_found delisted initial_world (req "luna")
                answer (getCryptoPrices "luna" delisted initial_world).2 JsNull)
      as [_ Hnull]; [reflexivity|reflexivity|].
    rewrite Hnull; [reflexivity|]. set_solver.
  - destruct (entry_value_decides_found delisted initial_world (req "terra")
                answer (getCryptoPrices "terra" delisted initial_world).2
                (JsObject []))
      as [Hobj _]; [reflexivity|reflexivity|].
    rewrite Hobj; [|eauto]. eexists. split; reflexivity.
Defined.
